(** * ulogme (newlogme): activity aggregation, overview and note/blog writes

    A shallow embedding of
      - [new/site-template/backend-lib/ulogme-db.ts], the DuckDB query
        module the server imports,
      - [new/site-template/server.ts], the note, blog and settings write
        routes,
      - [components/ulogme/CategoryStats.tsx], the client-side duration
        derivation,
      - [site-template/backend-lib/ulogme-db.ts], the later copy of the
        query module, for its connection handling,
    together with the category classifier, which the repository only
    describes (settings page and design notes) and does not implement.

    Conventions of the embedding.
      - A TIMESTAMP is an instant counted in milliseconds ([Z]); a DATE is a
        day number ([Z]).  The strings the TypeScript code passes around for
        them are taken as already parsed.  The store keeps microseconds and
        the client parses the text of a timestamp again, at millisecond
        resolution; the embedding has one clock for both.  The client's
        events are therefore in the order of the stored ones, and no
        theorem below equates a duration derived by the client with one
        derived by the server.
      - JavaScript numbers that hold seconds are rationals ([Q]); equality
        on them is [==].
      - A table is the list of its rows in storage order; ORDER BY is a
        stable sort of that list, GROUP BY lists the groups in order of
        first appearance.
      - A JavaScript object used as a dictionary is an association list in
        insertion order (keys are application names, none of which is taken
        to be an integer index or a member of [Object.prototype]).
      - Code that can throw runs in the monad [M]: a world is threaded
        through, an exception keeps the world reached so far. *)

From Stdlib Require Import ZArith QArith Qminmax List String Bool Lia Lqa.
From Stdlib Require Import Permutation Sorted DecimalString Qround.
Import ListNotations.

Local Open Scope string_scope.
Local Open Scope list_scope.
Local Open Scope Z_scope.

(* ===================================================================== *)
(** * Generic list machinery: stable sort, grouping                      *)
(* ===================================================================== *)

Section StableSort.
Context {A : Type}.
Variable leb : A -> A -> bool.

(** [insert x l] puts [x] in front of the first element it may precede:
    an element that compares equal to [x] stays behind it, which is what
    makes [sort] stable ([x] came first in the input). *)
Fixpoint insert (x : A) (l : list A) : list A :=
  match l with
  | [] => [x]
  | y :: l' => if leb x y then x :: y :: l' else y :: insert x l'
  end.

Fixpoint sort (l : list A) : list A :=
  match l with
  | [] => []
  | x :: l' => insert x (sort l')
  end.
End StableSort.

(** Keys of a list in order of first appearance (GROUP BY, DISTINCT). *)
Fixpoint distinct {K : Type} (eqb : K -> K -> bool) (l : list K) : list K :=
  match l with
  | [] => []
  | x :: l' => x :: filter (fun y => negb (eqb x y)) (distinct eqb l')
  end.

(** SQL [SUM]: NULL over no rows. *)
Definition SUM_Z (l : list Z) : option Z :=
  match l with
  | [] => None
  | _ => Some (fold_left Z.add l 0)
  end.

Definition SUM_Q (l : list Q) : option Q :=
  match l with
  | [] => None
  | _ => Some (fold_left Qplus l (0%Q))
  end.

Definition COALESCE {A : Type} (v : option A) (dflt : A) : A :=
  match v with
  | Some x => x
  | None => dflt
  end.

(* ===================================================================== *)
(** * The error-and-state monad                                          *)
(* ===================================================================== *)

Inductive Result (A : Type) : Type :=
| Ok (a : A)
| Throw (msg : string).
Arguments Ok {A} a.
Arguments Throw {A} msg.

Section Monad.
Variable World : Type.

Definition M (A : Type) : Type := World -> Result A * World.

Definition ret {A} (a : A) : M A := fun w => (Ok a, w).

Definition throw {A} (msg : string) : M A := fun w => (Throw msg, w).

Definition bind {A B} (c : M A) (k : A -> M B) : M B :=
  fun w =>
    match c w with
    | (Ok a, w') => k a w'
    | (Throw msg, w') => (Throw msg, w')
    end.

(** [try { c } catch (error) { h }] *)
Definition try_catch {A} (c : M A) (h : string -> M A) : M A :=
  fun w =>
    match c w with
    | (Ok a, w') => (Ok a, w')
    | (Throw msg, w') => h msg w'
    end.
End Monad.
Arguments ret {World A} a.
Arguments throw {World A} msg.
Arguments bind {World A B} c k.
Arguments try_catch {World A} c h.

Notation "x <- c ;; k" := (bind c (fun x => k))
  (at level 61, c at next level, right associativity).
Notation "c ;;; k" := (bind c (fun _ => k))
  (at level 61, right associativity).

(* ===================================================================== *)
(** * backend-lib/ulogme-db.ts: the store                                *)
(* ===================================================================== *)

Definition Timestamp := Z.
Definition Date := Z.

(** The five tables (schema of the tracker, REWRITE_PLAN.md section 2):
    window_events PRIMARY KEY (timestamp, app_name), key_events and notes
    PRIMARY KEY timestamp, daily_blog PRIMARY KEY logical_date with a
    nullable content, settings PRIMARY KEY key. *)
Record WindowEventRow := {
  w_timestamp : Timestamp;
  w_app_name : string;
  w_window_title : option string;
  w_browser_url : option string;
  w_logical_date : Date
}.

Record KeyEventRow := {
  k_timestamp : Timestamp;
  k_key_count : Z;
  k_logical_date : Date
}.

Record NoteRow := {
  n_timestamp : Timestamp;
  n_content : string;
  n_logical_date : Date
}.

Record BlogRow := {
  b_logical_date : Date;
  b_content : option string
}.

Record Database := {
  window_events : list WindowEventRow;
  key_events : list KeyEventRow;
  notes : list NoteRow;
  daily_blog : list BlogRow;
  settings : list (string * string)
}.

(** [access_mode] of a DuckDB instance. *)
Inductive AccessMode := READ_ONLY | READ_WRITE.

Record DuckDBConnection := { access_mode : AccessMode }.

(** The database file, which the tracker has created, and the
    module-level [connection] variable
    ([let connection: DuckDBConnection | null = null]). *)
Record World := {
  db : Database;
  connection : option DuckDBConnection
}.

Definition set_connection (c : option DuckDBConnection) (w : World) : World :=
  {| db := db w; connection := c |}.

Definition set_db (d : Database) (w : World) : World :=
  {| db := d; connection := connection w |}.

(** A process that has just loaded the module over the database [d]. *)
Definition loaded (d : Database) : World :=
  {| db := d; connection := None |}.

(** [getConnection]: the cached connection, or a new one opened with
    [access_mode: READ_ONLY]. *)
Definition getConnection : M World DuckDBConnection :=
  fun w =>
    match connection w with
    | Some c => (Ok c, w)
    | None =>
        let c := {| access_mode := READ_ONLY |} in
        (Ok c, set_connection (Some c) w)
    end.

(** [closeConnection]: forgets the cached connection. *)
Definition closeConnection : M World unit :=
  fun w => (Ok tt, set_connection None w).

(** [conn.run] of a SELECT: evaluates the query on the current contents. *)
Definition run_select {A} (conn : DuckDBConnection) (q : Database -> A)
  : M World A :=
  fun w => (Ok (q (db w)), w).

Definition read_only_error : string :=
  "Cannot execute statement of type INSERT on database which is attached in read-only mode".

(** [conn.run] of an INSERT: DuckDB refuses it on a read-only instance and
    leaves the file as it is; otherwise the statement is applied. *)
Definition run_insert (conn : DuckDBConnection) (stmt : Database -> Database)
  : M World unit :=
  fun w =>
    match access_mode conn with
    | READ_ONLY => (Throw read_only_error, w)
    | READ_WRITE => (Ok tt, set_db (stmt (db w)) w)
    end.

(** ** Interfaces returned to the caller *)

Record WindowEvent := {
  timestamp : Timestamp;
  app_name : string;
  window_title : option string;
  browser_url : option string
}.

Record KeyEvent := {
  ke_timestamp : Timestamp;
  key_count : Z
}.

Record Note := {
  note_timestamp : Timestamp;
  content : string
}.

Record DayData := {
  dd_logical_date : Date;
  dd_window_events : list WindowEvent;
  dd_key_events : list KeyEvent;
  dd_notes : list Note;
  blog : option string
}.

Record DailySummary := {
  logical_date : Date;
  total_keys : Z;
  unique_apps : nat
}.

Record AppUsage := {
  au_app_name : string;
  duration_seconds : Q;
  event_count : nat
}.

(** [row[2] ? String(row[2]) : null]: NULL and the empty string both give
    [null]. *)
Definition truthy_string (s : string) : bool :=
  negb (String.eqb s EmptyString).

Definition string_or_null (v : option string) : option string :=
  match v with
  | Some s => if truthy_string s then Some s else None
  | None => None
  end.

(** ** getDayData *)

Definition by_timestamp {R} (ts : R -> Timestamp) (x y : R) : bool :=
  ts x <=? ts y.

Definition select_window_events (logicalDate : Date) (d : Database)
  : list WindowEventRow :=
  sort (by_timestamp w_timestamp)
       (filter (fun r => w_logical_date r =? logicalDate) (window_events d)).

Definition select_key_events (logicalDate : Date) (d : Database)
  : list KeyEventRow :=
  sort (by_timestamp k_timestamp)
       (filter (fun r => k_logical_date r =? logicalDate) (key_events d)).

Definition select_notes (logicalDate : Date) (d : Database) : list NoteRow :=
  sort (by_timestamp n_timestamp)
       (filter (fun r => n_logical_date r =? logicalDate) (notes d)).

Definition select_blog (logicalDate : Date) (d : Database) : list BlogRow :=
  filter (fun r => b_logical_date r =? logicalDate) (daily_blog d).

Definition to_WindowEvent (r : WindowEventRow) : WindowEvent :=
  {| timestamp := w_timestamp r;
     app_name := w_app_name r;
     window_title := string_or_null (w_window_title r);
     browser_url := string_or_null (w_browser_url r) |}.

Definition to_KeyEvent (r : KeyEventRow) : KeyEvent :=
  {| ke_timestamp := k_timestamp r; key_count := k_key_count r |}.

Definition to_Note (r : NoteRow) : Note :=
  {| note_timestamp := n_timestamp r; content := n_content r |}.

Definition getDayData (logicalDate : Date) : M World DayData :=
  conn <- getConnection ;;
  windowRows <- run_select conn (select_window_events logicalDate) ;;
  keyRows <- run_select conn (select_key_events logicalDate) ;;
  notesRows <- run_select conn (select_notes logicalDate) ;;
  blogRows <- run_select conn (select_blog logicalDate) ;;
  ret {| dd_logical_date := logicalDate;
         dd_window_events := map to_WindowEvent windowRows;
         dd_key_events := map to_KeyEvent keyRows;
         dd_notes := map to_Note notesRows;
         blog := match blogRows with
                 | r :: _ => string_or_null (b_content r)
                 | [] => None
                 end |}.

(** ** getOverview *)

(** The optional [WHERE w.logical_date >= ? AND w.logical_date <= ?]. *)
Definition in_range (fromDate toDate : option Date) (r : WindowEventRow)
  : bool :=
  match fromDate with Some f => f <=? w_logical_date r | None => true end
  && match toDate with Some t => w_logical_date r <=? t | None => true end.

(** One output row of the GROUP BY: the correlated subquery for
    [total_keys] ranges over the whole key_events table, [unique_apps] over
    the window events of the group. *)
Definition overview_row (d : Database) (rows : list WindowEventRow)
  (date : Date) : DailySummary :=
  {| logical_date := date;
     total_keys :=
       COALESCE
         (SUM_Z (map k_key_count
                   (filter (fun k => k_logical_date k =? date) (key_events d))))
         0;
     unique_apps :=
       List.length (distinct String.eqb
                 (map w_app_name
                    (filter (fun w => w_logical_date w =? date) rows))) |}.

(** [ORDER BY w.logical_date DESC] *)
Definition newest_first (a b : DailySummary) : bool :=
  logical_date b <=? logical_date a.

(** The grouped rows in output order, before [LIMIT]. *)
Definition overview_groups (fromDate toDate : option Date) (d : Database)
  : list DailySummary :=
  let rows := filter (in_range fromDate toDate) (window_events d) in
  let groups := distinct Z.eqb (map w_logical_date rows) in
  sort newest_first (map (overview_row d rows) groups).

Definition overview_query (fromDate toDate : option Date) (limit : nat)
  (d : Database) : list DailySummary :=
  firstn limit (overview_groups fromDate toDate d).

Definition getOverview (fromDate toDate : option Date) (limit : nat)
  : M World (list DailySummary) :=
  conn <- getConnection ;;
  rows <- run_select conn (overview_query fromDate toDate limit) ;;
  ret rows.

(** ** getAppUsageForDate *)

(** A row of the [event_durations] common table expression. *)
Record EventDuration := {
  ed_app_name : string;
  ed_timestamp : Timestamp;
  next_timestamp : option Timestamp
}.

(** [LEAD(timestamp) OVER (ORDER BY timestamp)] on rows already in window
    order: the timestamp of the following row, NULL on the last one. *)
Fixpoint LEAD (rows : list WindowEventRow) : list EventDuration :=
  match rows with
  | [] => []
  | r :: rest =>
      {| ed_app_name := w_app_name r;
         ed_timestamp := w_timestamp r;
         next_timestamp := match rest with
                           | r' :: _ => Some (w_timestamp r')
                           | [] => None
                           end |} :: LEAD rest
  end.

Definition event_durations (logicalDate : Date) (d : Database)
  : list EventDuration :=
  LEAD (select_window_events logicalDate d).

(** [EXTRACT(EPOCH FROM interval)]: the interval in seconds. *)
Definition EPOCH (interval : Z) : Q := inject_Z interval / 1000.

(** [CASE WHEN next_timestamp IS NOT NULL THEN EXTRACT(EPOCH FROM
    (next_timestamp - timestamp)) ELSE 0 END] *)
Definition row_duration (e : EventDuration) : Q :=
  match next_timestamp e with
  | Some next => EPOCH (next - ed_timestamp e)
  | None => 0
  end.

(** [Number(row[1])]: [Number(null)] is 0. *)
Definition Number (v : option Q) : Q :=
  match v with
  | Some q => q
  | None => 0
  end.

Definition app_usage_row (eds : list EventDuration) (app : string)
  : AppUsage :=
  let group := filter (fun e => String.eqb (ed_app_name e) app) eds in
  {| au_app_name := app;
     duration_seconds := Number (SUM_Q (map row_duration group));
     event_count := List.length group |}.

(** [ORDER BY duration_seconds DESC] *)
Definition longest_first (a b : AppUsage) : bool :=
  Qle_bool (duration_seconds b) (duration_seconds a).

Definition app_usage_query (logicalDate : Date) (d : Database)
  : list AppUsage :=
  let eds := event_durations logicalDate d in
  let groups := distinct String.eqb (map ed_app_name eds) in
  sort longest_first (map (app_usage_row eds) groups).

Definition getAppUsageForDate (logicalDate : Date)
  : M World (list AppUsage) :=
  conn <- getConnection ;;
  rows <- run_select conn (app_usage_query logicalDate) ;;
  ret rows.

(** ** addNote, saveBlog *)

(** [INSERT INTO notes (timestamp, content, logical_date) VALUES (?, ?, ?)
     ON CONFLICT (timestamp) DO UPDATE SET content = excluded.content] *)
Definition set_content (c : string) (r : NoteRow) : NoteRow :=
  {| n_timestamp := n_timestamp r;
     n_content := c;
     n_logical_date := n_logical_date r |}.

Definition upsert_note (t : Timestamp) (c : string) (logicalDate : Date)
  (rows : list NoteRow) : list NoteRow :=
  if existsb (fun r => n_timestamp r =? t) rows
  then map (fun r => if n_timestamp r =? t then set_content c r else r) rows
  else rows ++ [ {| n_timestamp := t;
                    n_content := c;
                    n_logical_date := logicalDate |} ].

Definition insert_note (t : Timestamp) (c : string) (logicalDate : Date)
  (d : Database) : Database :=
  {| window_events := window_events d;
     key_events := key_events d;
     notes := upsert_note t c logicalDate (notes d);
     daily_blog := daily_blog d;
     settings := settings d |}.

Definition addNote (t : Timestamp) (c : string) (logicalDate : Date)
  : M World unit :=
  conn <- getConnection ;;
  run_insert conn (insert_note t c logicalDate).

(** [INSERT INTO daily_blog (logical_date, content) VALUES (?, ?)
     ON CONFLICT (logical_date) DO UPDATE SET content = excluded.content] *)
Definition upsert_blog (logicalDate : Date) (c : string)
  (rows : list BlogRow) : list BlogRow :=
  if existsb (fun r => b_logical_date r =? logicalDate) rows
  then map (fun r => if b_logical_date r =? logicalDate
                     then {| b_logical_date := b_logical_date r;
                             b_content := Some c |}
                     else r) rows
  else rows ++ [ {| b_logical_date := logicalDate; b_content := Some c |} ].

Definition insert_blog (logicalDate : Date) (c : string) (d : Database)
  : Database :=
  {| window_events := window_events d;
     key_events := key_events d;
     notes := notes d;
     daily_blog := upsert_blog logicalDate c (daily_blog d);
     settings := settings d |}.

Definition saveBlog (logicalDate : Date) (c : string) : M World unit :=
  conn <- getConnection ;;
  run_insert conn (insert_blog logicalDate c).

(* ===================================================================== *)
(** * server.ts: the two write routes                                    *)
(* ===================================================================== *)

Inductive Response :=
| Success                         (* c.json({ success: true })      *)
| BadRequest (error : string)     (* c.json({ error }, 400)         *)
| ServerError (error : string).   (* c.json({ error }, 500)         *)

(** The three properties the route reads off the parsed body of
    POST /api/ulogme/note.  A field is [None] when the value has no usable
    value for it (absent, null, false, 0 or the empty string);
    [note_content_field] keeps the empty string apart, which JavaScript
    also counts as false. *)
Record NoteBody := {
  note_timestamp_field : option Timestamp;
  note_content_field : option string;
  note_logical_date_field : option Date
}.

(** The body of a request to POST /api/ulogme/note, as the route meets
    it. *)
Inductive NoteRequest :=
| Unparsable           (* not JSON text, the empty body included       *)
| NullBody             (* the JSON text [null]                         *)
| Body (b : NoteBody). (* any other JSON value; a number, a string, a
                          boolean or an array has none of the fields   *)

(** [await c.req.json()]: rejects with a SyntaxError on a body that is
    not JSON; [None] is the value [null]. *)
Definition req_json (r : NoteRequest) : M World (option NoteBody) :=
  match r with
  | Unparsable => throw "SyntaxError"
  | NullBody => ret None
  | Body b => ret (Some b)
  end.

(** [const { timestamp, content, logical_date } = body]: destructuring
    [null] throws a TypeError. *)
Definition destructure (body : option NoteBody) : M World NoteBody :=
  match body with
  | None => throw "TypeError"
  | Some b => ret b
  end.

(** [!timestamp || !content || !logical_date] *)
Definition note_body_fields (b : NoteBody)
  : option (Timestamp * string * Date) :=
  match note_timestamp_field b, note_content_field b,
        note_logical_date_field b with
  | Some t, Some c, Some d =>
      if truthy_string c then Some (t, c, d) else None
  | _, _, _ => None
  end.

Definition post_note (r : NoteRequest) : M World Response :=
  try_catch
    (body <- req_json r ;;
     fields <- destructure body ;;
     match note_body_fields fields with
     | None =>
         ret (BadRequest "timestamp, content, and logical_date are required")
     | Some (t, c, d) =>
         addNote t c d ;;; ret Success
     end)
    (fun _ => ret (ServerError "Failed to add note")).

(** The parsed JSON object of PUT /api/ulogme/blog/:logicalDate;
    [None] is [content === undefined]. *)
Record BlogBody := { blog_content_field : option string }.

Definition put_blog (logicalDate : Date) (body : BlogBody)
  : M World Response :=
  try_catch
    (match blog_content_field body with
     | None => ret (BadRequest "content is required")
     | Some c => saveBlog logicalDate c ;;; ret Success
     end)
    (fun _ => ret (ServerError "Failed to save blog")).

(* ===================================================================== *)
(** * site-template/backend-lib/ulogme-db.ts: the later copy             *)
(* ===================================================================== *)

(** The repository holds a second copy of the query module, with the same
    statements but without the cached connection: every read opens and
    closes a read-only connection ([withConnection]), every write one that
    has write access ([withWriteConnection], "Helper for write operations -
    needs write access").  Both refuse to run when the database file does
    not exist. *)
Module SiteTemplate.

(** The database file, [None] until the tracker has created it. *)
Definition Disk : Type := option Database.

Definition not_found_error : string :=
  "Database not found. Run the tracker first to create it.".

Definition run_select {A} (conn : DuckDBConnection) (q : Database -> A)
  : M Database A :=
  fun d => (Ok (q d), d).

Definition run_insert (conn : DuckDBConnection) (stmt : Database -> Database)
  : M Database unit :=
  fun d =>
    match access_mode conn with
    | READ_ONLY => (Throw read_only_error, d)
    | READ_WRITE => (Ok tt, stmt d)
    end.

(** [existsSync(DB_PATH)], then [fn] on a connection of the given mode;
    the [finally] block closes connection and instance. *)
Definition with_mode {A} (mode : AccessMode)
  (fn : DuckDBConnection -> M Database A) : M Disk A :=
  fun w =>
    match w with
    | None => (Throw not_found_error, None)
    | Some d =>
        let (r, d') := fn {| access_mode := mode |} d in (r, Some d')
    end.

(** [DuckDBInstance.create(DB_PATH, { access_mode: READ_ONLY })] *)
Definition withConnection {A} (fn : DuckDBConnection -> M Database A)
  : M Disk A :=
  with_mode READ_ONLY fn.

(** [DuckDBInstance.create(DB_PATH)]: the default mode opens the file for
    reading and writing. *)
Definition withWriteConnection {A} (fn : DuckDBConnection -> M Database A)
  : M Disk A :=
  with_mode READ_WRITE fn.

Definition getDayData (logicalDate : Date) : M Disk DayData :=
  withConnection (fun conn =>
    windowRows <- run_select conn (select_window_events logicalDate) ;;
    keyRows <- run_select conn (select_key_events logicalDate) ;;
    notesRows <- run_select conn (select_notes logicalDate) ;;
    blogRows <- run_select conn (select_blog logicalDate) ;;
    ret {| dd_logical_date := logicalDate;
           dd_window_events := map to_WindowEvent windowRows;
           dd_key_events := map to_KeyEvent keyRows;
           dd_notes := map to_Note notesRows;
           blog := match blogRows with
                   | r :: _ => string_or_null (b_content r)
                   | [] => None
                   end |}).

Definition addNote (t : Timestamp) (c : string) (logicalDate : Date)
  : M Disk unit :=
  withWriteConnection (fun conn =>
    run_insert conn (insert_note t c logicalDate)).

Definition saveBlog (logicalDate : Date) (c : string) : M Disk unit :=
  withWriteConnection (fun conn =>
    run_insert conn (insert_blog logicalDate c)).

End SiteTemplate.

(* ===================================================================== *)
(** * components/ulogme/CategoryStats.tsx: durations by app              *)
(* ===================================================================== *)

(** [Record<string, number>] *)
Definition Dict (V : Type) : Type := list (string * V).

Fixpoint dict_get {V} (k : string) (o : Dict V) : option V :=
  match o with
  | [] => None
  | (k', v) :: o' => if String.eqb k' k then Some v else dict_get k o'
  end.

(** Assignment [o[k] = v]: an existing key keeps its place. *)
Fixpoint dict_set {V} (k : string) (v : V) (o : Dict V) : Dict V :=
  match o with
  | [] => [(k, v)]
  | (k', v') :: o' =>
      if String.eqb k' k then (k', v) :: o' else (k', v') :: dict_set k v o'
  end.

(** [durations[app] || 0]: an absent entry and a zero entry both give 0. *)
Definition or_zero (v : option Q) : Q :=
  match v with
  | Some q => if Qeq_bool q 0 then 0%Q else q
  | None => 0%Q
  end.

(** [new Date(e.timestamp).getTime()]: the instant the text of the
    timestamp denotes to the client, in milliseconds. *)
Definition getTime (e : WindowEvent) : Z := timestamp e.

(** Body of the loop at index [i], where [e] is [events[i]]:
    [next] is the following event when there is one, [current] otherwise. *)
Definition durationSecs (events : list WindowEvent) (i : nat)
  (e : WindowEvent) : Q :=
  let current := getTime e in
  let next := match nth_error events (i + 1) with
              | Some e' => getTime e'
              | None => current
              end in
  inject_Z (next - current) / 1000.

Definition cappedDuration (events : list WindowEvent) (i : nat)
  (e : WindowEvent) : Q :=
  Qmin (durationSecs events i e) (30 * 60).

Definition loop_body (events : list WindowEvent) (durations : Dict Q)
  (i : nat) : Dict Q :=
  match nth_error events i with
  | Some e =>
      let app := app_name e in
      dict_set app
        (or_zero (dict_get app durations) + cappedDuration events i e)%Q
        durations
  | None => durations
  end.

(** [for (let i = 0; i < events.length; i++) { ... }] from [{}]. *)
Definition durations (events : list WindowEvent) : Dict Q :=
  fold_left (loop_body events) (seq 0 (List.length events)) [].

Definition LOCKEDSCREEN : string := "__LOCKEDSCREEN".

(** [.sort((a, b) => b[1] - a[1])]: [a] may stand before [b] when the
    comparator is not positive. *)
Definition by_duration (a b : string * Q) : bool :=
  Qle_bool (snd b - snd a) 0.

(** A bar of the chart; the colour, key and label fields derived from
    these two are left out. *)
Record ChartDatum := {
  name : string;
  duration : Q
}.

Definition CategoryStats (events : list WindowEvent) : list ChartDatum :=
  match events with
  | [] => []
  | _ =>
      let sorted :=
        firstn 8
          (sort by_duration
             (filter (fun en => negb (String.eqb (fst en) LOCKEDSCREEN))
                (durations events))) in
      map (fun en => {| name := fst en; duration := snd en |}) sorted
  end.

(* ===================================================================== *)
(** * Category classifier                                                *)
(* ===================================================================== *)

(** Modelled from the spec: section 3, CategoryRule (the rule editor of
    the settings page has the first two fields only). *)
Record CategoryRule := {
  pattern : string;
  category : string;
  priority : Z
}.

Section Classifier.
(** The regular-expression engine: [regex_match p s] is [None] when the
    pattern [p] does not compile. *)
Variable regex_match : string -> string -> option bool.

(** Modelled from the spec: a rule whose pattern does not compile
    matches nothing. *)
Definition rule_matches (subject : string) (r : CategoryRule) : bool :=
  match regex_match (pattern r) subject with
  | Some b => b
  | None => false
  end.

(** Modelled from the spec: higher priority first; the sort is stable,
    so declaration order decides between equal priorities. *)
Definition by_priority (a b : CategoryRule) : bool :=
  priority b <=? priority a.

(** Modelled from the spec: the classifier itself is missing from the
    sources (only the rule editor of the settings page and the design
    notes exist).  Section 4.3: evaluate rules in priority order
    (declaration order breaks ties); return the category of the first rule
    whose pattern matches [subject]; if no rule matches, return the raw
    application name; a rule whose pattern does not compile is skipped. *)
Definition classify (app : string) (subject : string)
  (rules : list CategoryRule) : string :=
  match find (rule_matches subject) (sort by_priority rules) with
  | Some r => category r
  | None => app
  end.
End Classifier.

(* ===================================================================== *)
(** * Sample data                                                        *)
(* ===================================================================== *)

(** The instant [h:m] counted from the start of day 0, in milliseconds. *)
Definition clock (h m : Z) : Timestamp := (h * 60 + m) * 60 * 1000.

Definition focus (t : Timestamp) (app : string) (day : Date)
  : WindowEventRow :=
  {| w_timestamp := t;
     w_app_name := app;
     w_window_title := None;
     w_browser_url := None;
     w_logical_date := day |}.

Definition only_window_events (rows : list WindowEventRow) : Database :=
  {| window_events := rows;
     key_events := [];
     notes := [];
     daily_blog := [];
     settings := [] |}.

Definition empty_database : Database := only_window_events [].

(** Section 8 of the specification: (09:00, Chrome), (09:05, VSCode),
    (09:40, Chrome). *)
Definition morning : Database :=
  only_window_events
    [ focus (clock 9 0) "Chrome" 0;
      focus (clock 9 5) "VSCode" 0;
      focus (clock 9 40) "Chrome" 0 ].

(** A day on which the screen was locked for ten minutes. *)
Definition locked_day : Database :=
  only_window_events
    [ focus (clock 9 0) "Chrome" 0;
      focus (clock 9 10) LOCKEDSCREEN 0;
      focus (clock 9 20) "Chrome" 0 ].

(** Events at 09:00 on days 10 and 12, nothing on day 11. *)
Definition gap_days : Database :=
  only_window_events
    [ focus (clock (24 * 10 + 9) 0) "Chrome" 10;
      focus (clock (24 * 12 + 9) 0) "Chrome" 12 ].

(* ===================================================================== *)
(** * Properties stated by the specification                             *)
(* ===================================================================== *)

(** A logical date qualifies for the overview when some window event of
    the requested range carries it. *)
Definition qualifies (d : Database) (fromDate toDate : option Date)
  (date : Date) : Prop :=
  exists r, In r (window_events d)
            /\ in_range fromDate toDate r = true
            /\ w_logical_date r = date.

(** No row of any kind is recorded for the date. *)
Definition no_recorded_events (d : Database) (date : Date) : Prop :=
  (forall r, In r (window_events d) -> w_logical_date r <> date)
  /\ (forall k, In k (key_events d) -> k_logical_date k <> date).

(** The date lies in the requested range. *)
Definition date_in_range (fromDate toDate : option Date) (date : Date)
  : Prop :=
  match fromDate with Some f => f <= date | None => True end
  /\ match toDate with Some t => date <= t | None => True end.

(** ** The duration deriver in the specification's words (section 4.2)

    [duration_i = min(timestamp(i+1) - timestamp(i), gap_cap)] for
    consecutive events, zero for the final event, summed per app_name;
    [gap_cap] defaults to 30 minutes. *)
Definition gap_cap : Q := 30 * 60.

Definition spec_duration (events : list WindowEvent) (i : nat) : Q :=
  match nth_error events i, nth_error events (S i) with
  | Some e, Some e' =>
      Qmin (inject_Z (timestamp e' - timestamp e) / 1000) gap_cap
  | _, _ => 0
  end.

Definition Qsum (l : list Q) : Q := fold_right Qplus 0%Q l.

Definition spec_share (events : list WindowEvent) (app : string) (i : nat)
  : Q :=
  match nth_error events i with
  | Some e =>
      if String.eqb (app_name e) app then spec_duration events i else 0%Q
  | None => 0%Q
  end.

Definition spec_total (events : list WindowEvent) (app : string) : Q :=
  Qsum (map (spec_share events app) (seq 0 (List.length events))).

(** What iteration [i] of the loop of [CategoryStats] adds to [app]. *)
Definition loop_share (events : list WindowEvent) (app : string) (i : nat)
  : Q :=
  match nth_error events i with
  | Some e =>
      if String.eqb (app_name e) app then cappedDuration events i e else 0%Q
  | None => 0%Q
  end.

(** Every world the module can be in: no connection yet, or the read-only
    one [getConnection] opened. *)
Definition module_state (w : World) : Prop :=
  connection w = None
  \/ connection w = Some {| access_mode := READ_ONLY |}.

(** The same worlds by construction: the database contents, and whether
    [getConnection] has run already. *)
Definition module_world (d : Database) (opened : bool) : World :=
  {| db := d;
     connection := if opened
                   then Some {| access_mode := READ_ONLY |}
                   else None |}.

(** The notes stored at a timestamp. *)
Definition notes_at (t : Timestamp) (d : Database) : list NoteRow :=
  filter (fun r => n_timestamp r =? t) (notes d).

(** The request is missing the timestamp, the content or the logical
    date; a body that is not JSON, or is [null], carries none of them. *)
Definition lacks_field (r : NoteRequest) : Prop :=
  match r with
  | Body b =>
      note_timestamp_field b = None
      \/ note_content_field b = None
      \/ note_logical_date_field b = None
  | Unparsable | NullBody => True
  end.

(** The note request of the specification's round trip, at noon. *)
Definition lunch : NoteRequest :=
  Body {| note_timestamp_field := Some (clock 12 0);
          note_content_field := Some "lunch";
          note_logical_date_field := Some 0 |}.

(** The rules of the specification's classifier example. *)
Definition example_rules : list CategoryRule :=
  [ {| pattern := "Chrome"; category := "Browser"; priority := 1 |};
    {| pattern := "VSCode"; category := "Coding"; priority := 2 |} ].

(** A substring test standing for the regular-expression engine on
    patterns without metacharacters. *)
Definition literal_match (p s : string) : option bool :=
  match index 0 p s with
  | Some _ => Some true
  | None => Some false
  end.

(* ===================================================================== *)
(** * ulogme-db.ts: the remaining queries                                *)
(* ===================================================================== *)

Record DateInfo := {
  di_logical_date : Date;
  label : string
}.

(** [SELECT DISTINCT logical_date FROM (SELECT logical_date FROM
    window_events UNION SELECT logical_date FROM key_events)
    ORDER BY logical_date DESC] *)
Definition available_dates_query (d : Database) : list Date :=
  sort (fun a b => b <=? a)
       (distinct Z.eqb
          (map w_logical_date (window_events d)
           ++ map k_logical_date (key_events d))).

Section AvailableDates.
(** [formatDateLabel]: the en-US rendering of the date, left to the
    JavaScript runtime. *)
Variable formatDateLabel : Date -> string.

(** [getAvailableDates].  The loop skips a row whose date value is falsy;
    the column is NOT NULL and its values are date objects, so no row is
    skipped. *)
Definition getAvailableDates : M World (list DateInfo) :=
  conn <- getConnection ;;
  rows <- run_select conn available_dates_query ;;
  ret (map (fun dateValue =>
              {| di_logical_date := dateValue;
                 label := formatDateLabel dateValue |}) rows).
End AvailableDates.

(** The span of a day in the window order of [event_durations]: from its
    first event to its last, in milliseconds; 0 for a day without events. *)
Definition day_span (logicalDate : Date) (d : Database) : Z :=
  match select_window_events logicalDate d with
  | [] => 0
  | first :: rest => w_timestamp (last rest first) - w_timestamp first
  end.

(** Sum of the key samples of a date. *)
Definition keys_of_day (logicalDate : Date) (d : Database) : Z :=
  fold_right Z.add 0
    (map k_key_count
       (filter (fun k => k_logical_date k =? logicalDate) (key_events d))).

Definition has_window_event (d : Database) (date : Date) : Prop :=
  exists r, In r (window_events d) /\ w_logical_date r = date.

Definition has_key_event (d : Database) (date : Date) : Prop :=
  exists k, In k (key_events d) /\ k_logical_date k = date.

(* ===================================================================== *)
(** * Settings: getSettings, updateSetting and the settings routes       *)
(* ===================================================================== *)

(** [INSERT INTO settings (key, value) VALUES (?, ?::JSON)
     ON CONFLICT (key) DO UPDATE SET value = excluded.value] *)
Definition upsert_setting (key value : string)
  (rows : list (string * string)) : list (string * string) :=
  if existsb (fun r => String.eqb (fst r) key) rows
  then map (fun r => if String.eqb (fst r) key then (fst r, value) else r)
           rows
  else rows ++ [(key, value)].

Definition insert_setting (key value : string) (d : Database) : Database :=
  {| window_events := window_events d;
     key_events := key_events d;
     notes := notes d;
     daily_blog := daily_blog d;
     settings := upsert_setting key value (settings d) |}.

Section Settings.
(** JavaScript values as far as JSON goes, with [JSON.stringify] and
    [JSON.parse]; the latter is [None] where it throws a SyntaxError. *)
Variable JsonValue : Type.
Variable JSON_stringify : JsonValue -> string.
Variable JSON_parse : string -> option JsonValue.

(** An entry of the object [getSettings] returns: the parsed value, or
    the stored text itself when it does not parse. *)
Inductive SettingValue :=
| Parsed (v : JsonValue)
| Raw (text : string).

(** [try { settings[key] = JSON.parse(String(row[1])) }
     catch { settings[key] = row[1] }] *)
Definition read_setting (text : string) : SettingValue :=
  match JSON_parse text with
  | Some v => Parsed v
  | None => Raw text
  end.

(** The loop of [getSettings] over the rows of [SELECT key, value FROM
    settings]. *)
Definition settings_object (rows : list (string * string))
  : Dict SettingValue :=
  fold_left (fun settings row =>
               dict_set (fst row) (read_setting (snd row)) settings)
            rows [].

Definition getSettings : M World (Dict SettingValue) :=
  conn <- getConnection ;;
  rows <- run_select conn settings ;;
  ret (settings_object rows).

Definition updateSetting (key : string) (value : JsonValue) : M World unit :=
  conn <- getConnection ;;
  run_insert conn (insert_setting key (JSON_stringify value)).

(** PUT /api/ulogme/settings on the entries of the parsed body:
    [for (const [key, value] of Object.entries(body))
       await updateSetting(key, value)]. *)
Fixpoint update_each (entries : list (string * JsonValue)) : M World unit :=
  match entries with
  | [] => ret tt
  | (key, value) :: rest => updateSetting key value ;;; update_each rest
  end.

Definition put_settings (body : list (string * JsonValue))
  : M World Response :=
  try_catch
    (update_each body ;;; ret Success)
    (fun _ => ret (ServerError "Failed to update settings")).

(** The same two functions in the later copy of the module. *)
Definition SiteTemplate_getSettings
  : M SiteTemplate.Disk (Dict SettingValue) :=
  SiteTemplate.withConnection (fun conn =>
    rows <- SiteTemplate.run_select conn settings ;;
    ret (settings_object rows)).

Definition SiteTemplate_updateSetting (key : string) (value : JsonValue)
  : M SiteTemplate.Disk unit :=
  SiteTemplate.withWriteConnection (fun conn =>
    SiteTemplate.run_insert conn
      (insert_setting key (JSON_stringify value))).
End Settings.

(** The last row that holds a key. *)
Definition last_setting (key : string) (rows : list (string * string))
  : option string :=
  match find (fun r => String.eqb (fst r) key) (rev rows) with
  | Some r => Some (snd r)
  | None => None
  end.

(* ===================================================================== *)
(** * Client components                                                  *)
(* ===================================================================== *)

(** Template-literal rendering of an integer-valued number. *)
Definition string_of_Z (z : Z) : string :=
  NilZero.string_of_int (Z.to_int z).

(** [x < y] on numbers. *)
Definition Qltb (x y : Q) : bool := negb (Qle_bool y x).

(** [Math.round]: the nearest integer, halves upwards. *)
Definition Math_round (x : Q) : Z := Qfloor (x + (1 # 2))%Q.

(** ** formatDuration (CategoryStats.tsx, CategoryPieChart)

    In the last branch [seconds] is at least 3600, where [seconds % 3600]
    is [seconds - 3600 * Math.floor(seconds / 3600)]. *)
Definition formatDuration (seconds : Q) : string :=
  if Qltb seconds 60 then string_of_Z (Math_round seconds) ++ "s"
  else if Qltb seconds 3600
  then string_of_Z (Math_round (seconds / 60)%Q) ++ "m"
  else
    let hours := Qfloor (seconds / 3600)%Q in
    let mins := Math_round ((seconds - 3600 * inject_Z hours) / 60)%Q in
    string_of_Z hours ++ "h " ++ string_of_Z mins ++ "m".

(** ** CategoryPieChart (ActivityTimeline.tsx) *)

Record PieSlice := {
  slice_name : string;
  value : Q
}.

Record PieChart := {
  pieData : list PieSlice;
  totalSeconds : Q
}.

(** [.reduce((sum, [, dur]) => sum + dur, 0)] *)
Definition reduce_durations (entries : list (string * Q)) : Q :=
  fold_left (fun sum en => (sum + snd en)%Q) entries 0%Q.

(** The loop over the events is the loop of [CategoryStats]; the five
    longest applications are kept and the rest, when it has a positive
    total, becomes the slice Other. *)
Definition CategoryPieChart (events : list WindowEvent) : PieChart :=
  match events with
  | [] => {| pieData := []; totalSeconds := 0 |}
  | _ =>
      let sorted :=
        sort by_duration
          (filter (fun en => negb (String.eqb (fst en) LOCKEDSCREEN))
             (durations events)) in
      let topApps := firstn 5 sorted in
      let otherDuration := reduce_durations (skipn 5 sorted) in
      let topApps :=
        if Qltb 0 otherDuration
        then topApps ++ [("Other", otherDuration)]
        else topApps in
      let total := reduce_durations topApps in
      {| pieData := map (fun en => {| slice_name := fst en;
                                      value := snd en |}) topApps;
         totalSeconds := total |}
  end.

(** The capped time of a day outside the lock screen, in the words of the
    specification's deriver. *)
Definition active_total (events : list WindowEvent) : Q :=
  Qsum (map (fun i =>
               match nth_error events i with
               | Some e =>
                   if String.eqb (app_name e) LOCKEDSCREEN
                   then 0%Q else spec_duration events i
               | None => 0%Q
               end) (seq 0 (List.length events))).

(** ** ActivityTimeline (ActivityTimeline.tsx) *)

Record HourData := {
  apps : Dict nat;
  total : nat
}.

Record TimelineRow := {
  hour : Z;
  hourLabel : string;
  events_in_hour : nat;
  topApp : option string;
  fill : string
}.

Definition APP_COLORS : Dict string :=
  [ ("Google Chrome", "var(--chart-1)");
    ("Safari", "var(--chart-1)");
    ("Arc", "var(--chart-1)");
    ("Firefox", "var(--chart-1)");
    ("Brave", "var(--chart-1)");
    ("Visual Studio Code", "var(--chart-2)");
    ("Cursor", "var(--chart-2)");
    ("Zed", "var(--chart-2)");
    ("Terminal", "var(--chart-3)");
    ("iTerm2", "var(--chart-3)");
    ("Warp", "var(--chart-3)");
    ("Slack", "var(--chart-4)");
    ("Discord", "var(--chart-4)");
    ("Messages", "var(--chart-4)");
    ("Finder", "var(--chart-5)");
    ("__LOCKEDSCREEN", "#374151") ].

Definition getAppColor (appName : string) : string :=
  match dict_get appName APP_COLORS with
  | Some colour => colour
  | None => "var(--chart-5)"
  end.

Definition formatHour (hour : Z) : string :=
  if hour =? 0 then "12am"
  else if hour =? 12 then "12pm"
  else if hour <? 12 then string_of_Z hour ++ "am"
  else string_of_Z (hour - 12) ++ "pm".

(** The hours of a logical day in display order: 7 to 23, then 0 to 6. *)
Definition day_hours : list Z := map Z.of_nat (seq 7 17).
Definition night_hours : list Z := map Z.of_nat (seq 0 7).
Definition orderedHours : list Z := day_hours ++ night_hours.

Fixpoint hour_get (h : Z) (o : list (Z * HourData)) : option HourData :=
  match o with
  | [] => None
  | (h', data) :: o' => if h' =? h then Some data else hour_get h o'
  end.

Fixpoint hour_set (h : Z) (data : HourData) (o : list (Z * HourData))
  : list (Z * HourData) :=
  match o with
  | [] => []
  | (h', data') :: o' =>
      if h' =? h then (h', data) :: o' else (h', data') :: hour_set h data o'
  end.

(** [hourlyData], initialised for every hour of the two loops. *)
Definition initial_hours : list (Z * HourData) :=
  map (fun h => (h, {| apps := []; total := 0 |})) orderedHours.

(** [map.get(key) || 0] *)
Definition count_or_zero (v : option nat) : nat :=
  match v with
  | Some n => n
  | None => 0
  end.

(** [.sort((a, b) => b[1] - a[1])] on counts. *)
Definition by_count (a b : string * nat) : bool := (snd b <=? snd a)%nat.

Section Timeline.
(** [new Date(timestamp).getHours()], the local hour of the instant. *)
Variable getHours : Timestamp -> Z.

(** The body of [events.forEach]: an hour that [hourlyData] does not hold
    is skipped. *)
Definition count_event (hourlyData : list (Z * HourData)) (event : WindowEvent)
  : list (Z * HourData) :=
  let h := getHours (timestamp event) in
  match hour_get h hourlyData with
  | Some data =>
      let current := count_or_zero (dict_get (app_name event) (apps data)) in
      hour_set h
        {| apps := dict_set (app_name event) (current + 1)%nat (apps data);
           total := (total data + 1)%nat |}
        hourlyData
  | None => hourlyData
  end.

Definition timeline_row (hourlyData : list (Z * HourData)) (h : Z)
  : TimelineRow :=
  let data := match hour_get h hourlyData with
              | Some data => data
              | None => {| apps := []; total := 0 |}
              end in
  let top := match sort by_count (apps data) with
             | (app, _) :: _ => Some app
             | [] => None
             end in
  {| hour := h;
     hourLabel := formatHour h;
     events_in_hour := total data;
     topApp := top;
     fill := match top with
             | Some app => getAppColor app
             | None => "#1f2937"
             end |}.

Definition ActivityTimeline (events : list WindowEvent) : list TimelineRow :=
  match events with
  | [] => []
  | _ =>
      let hourlyData := fold_left count_event events initial_hours in
      filter (fun d => (0 <? events_in_hour d)%nat
                       || ((7 <=? hour d) && (hour d <=? 23)))
             (map (timeline_row hourlyData) orderedHours)
  end.

(** The events of an hour, and those of one application in it. *)
Definition events_at (h : Z) (events : list WindowEvent) : list WindowEvent :=
  filter (fun e => getHours (timestamp e) =? h) events.

Definition events_of (h : Z) (app : string) (events : list WindowEvent)
  : list WindowEvent :=
  filter (fun e => String.eqb (app_name e) app) (events_at h events).
End Timeline.

(** ** HackingStreak (HackingStreak.tsx) *)

Definition getIntensityColor (intensity : Q) : string :=
  if Qeq_bool intensity 0 then "bg-slate-800/50"
  else if Qltb intensity 0.2 then "bg-cyan-950/80"
  else if Qltb intensity 0.4 then "bg-cyan-900/80"
  else if Qltb intensity 0.6 then "bg-cyan-700/80"
  else if Qltb intensity 0.8 then "bg-cyan-500/80"
  else "bg-cyan-400".

Record StreakCell := {
  cell_date : Date;
  keys : Z;
  intensity : Q
}.

(** [Math.max(...sorted.map((d) => d.total_keys), 1)] *)
Definition max_keys (sorted : list DailySummary) : Z :=
  fold_left Z.max (map total_keys sorted) 1.

Definition HackingStreak (days : list DailySummary) : list StreakCell * Z :=
  let sorted := rev days in
  let max := max_keys sorted in
  (map (fun day => {| cell_date := logical_date day;
                      keys := total_keys day;
                      intensity := inject_Z (total_keys day) / inject_Z max |})
       sorted,
   max).

(** ** The Recent Days card of the overview page (Overview.tsx)

    For each of the first 30 dates, the summary of the same date when the
    overview has one; the number shown is its [total_keys], or 0. *)
Definition RecentDays (dates : list DateInfo) (overview : list DailySummary)
  : list (DateInfo * Z) :=
  map (fun dateInfo =>
         let summary :=
           find (fun d => logical_date d =? di_logical_date dateInfo)
                overview in
         (dateInfo, match summary with
                    | Some s => total_keys s
                    | None => 0
                    end))
      (firstn 30 dates).

(** ** NotesPanel (NotesPanel.tsx) *)

Record NotesPanelState := {
  newNote : string;
  adding : bool;
  localNotes : list Note
}.

Section NotesPanel.
(** [String.prototype.trim]. *)
Variable trim : string -> string.

(** [handleAddNote] at the instant [now] ([new Date().toISOString()]) for
    the panel's [logicalDate] ([None]: the empty string).  The request,
    whose body is the [JSON.stringify] of an object with the three fields,
    goes to the note route of the server; [fetch] resolves whatever the
    status of the answer, so the answer is not looked at. *)
Definition handleAddNote (now : Timestamp) (logicalDate : option Date)
  (st : NotesPanelState) : M World NotesPanelState :=
  match logicalDate with
  | Some _ =>
      if truthy_string (trim (newNote st))
      then
        _ <- post_note
               (Body {| note_timestamp_field := Some now;
                        note_content_field := Some (trim (newNote st));
                        note_logical_date_field := logicalDate |}) ;;
        ret {| newNote := EmptyString;
               adding := false;
               localNotes :=
                 localNotes st
                 ++ [ {| note_timestamp := now;
                         content := trim (newNote st) |} ] |}
      else ret st
  | None => ret st
  end.
End NotesPanel.

(* ===================================================================== *)
(** * Lemmas on the list machinery                                       *)
(* ===================================================================== *)

Section StableSortFacts.
Context {A : Type}.
Variable leb : A -> A -> bool.

Let le (x y : A) : Prop := leb x y = true.

Lemma insert_perm (x : A) (l : list A) :
  Permutation (x :: l) (insert leb x l).
Proof.
  induction l as [|y l IH]; simpl.
  - apply Permutation_refl.
  - destruct (leb x y).
    + apply Permutation_refl.
    + eapply perm_trans; [apply perm_swap|].
      apply perm_skip, IH.
Qed.

Lemma sort_perm (l : list A) : Permutation l (sort leb l).
Proof.
  induction l as [|x l IH]; simpl.
  - constructor.
  - eapply perm_trans; [apply perm_skip, IH|]. apply insert_perm.
Qed.

Lemma sort_in (l : list A) (x : A) : In x (sort leb l) <-> In x l.
Proof.
  split; intro H.
  - eapply Permutation_in; [apply Permutation_sym, sort_perm|exact H].
  - eapply Permutation_in; [apply sort_perm|exact H].
Qed.

(** On a list that is already in order the sort changes nothing. *)
Lemma sort_sorted_id (l : list A) : Sorted le l -> sort leb l = l.
Proof.
  induction 1 as [|x l Hs IH Hhd]; simpl; [reflexivity|].
  rewrite IH. destruct Hhd as [|y l' Hxy]; simpl; [reflexivity|].
  unfold le in Hxy. now rewrite Hxy.
Qed.

Hypothesis leb_total : forall x y, leb x y = false -> leb y x = true.

Lemma insert_sorted (x : A) (l : list A) :
  Sorted le l -> Sorted le (insert leb x l).
Proof.
  induction 1 as [|y l Hs IH Hhd]; simpl.
  - repeat constructor.
  - destruct (leb x y) eqn:E.
    + constructor; [constructor; assumption|]. constructor. exact E.
    + constructor; [exact IH|].
      destruct Hhd as [|z l' Hyz]; simpl.
      * constructor. apply leb_total, E.
      * destruct (leb x z); constructor; [apply leb_total, E|exact Hyz].
Qed.

Lemma sort_sorted (l : list A) : Sorted le (sort leb l).
Proof.
  induction l as [|x l IH]; simpl; [constructor|].
  apply insert_sorted, IH.
Qed.

Hypothesis leb_trans :
  forall x y z, leb x y = true -> leb y z = true -> leb x z = true.

Lemma sort_strongly_sorted (l : list A) : StronglySorted le (sort leb l).
Proof.
  apply Sorted_StronglySorted; [|apply sort_sorted].
  intros x y z. apply leb_trans.
Qed.

(** Searching a sorted list after an insertion: the new element wins
    exactly when it satisfies [p] and may precede the previous winner. *)
Lemma find_insert (p : A -> bool) (x : A) (l : list A) :
  StronglySorted le l ->
  find p (insert leb x l) =
    match find p l with
    | Some y => if p x && leb x y then Some x else Some y
    | None => if p x then Some x else None
    end.
Proof.
  induction 1 as [|y l Hs IH Hall]; simpl.
  - destruct (p x); reflexivity.
  - destruct (leb x y) eqn:Exy; simpl.
    + destruct (p x) eqn:Px; simpl.
      * destruct (p y); [now rewrite Exy|].
        destruct (find p l) as [z|] eqn:F; [|reflexivity].
        apply find_some in F. destruct F as [Hz _].
        rewrite Forall_forall in Hall.
        now rewrite (leb_trans x y z Exy (Hall z Hz)).
      * destruct (p y); [reflexivity|].
        destruct (find p l); reflexivity.
    + destruct (p y) eqn:Py.
      * rewrite Exy, andb_false_r. reflexivity.
      * exact IH.
Qed.
End StableSortFacts.

Section DistinctFacts.
Context {K : Type}.
Variable eqb : K -> K -> bool.
Hypothesis eqb_spec : forall x y, eqb x y = true <-> x = y.

Lemma distinct_in (l : list K) (x : K) : In x (distinct eqb l) <-> In x l.
Proof.
  induction l as [|y l IH]; simpl; [tauto|].
  rewrite filter_In, IH. split.
  - intros [H|[H _]]; auto.
  - intros [H|H]; auto.
    destruct (eqb y x) eqn:E.
    + left. now apply eqb_spec.
    + right. split; [exact H|reflexivity].
Qed.

Lemma distinct_NoDup (l : list K) : NoDup (distinct eqb l).
Proof.
  induction l as [|y l IH]; simpl; constructor.
  - rewrite filter_In. intros [_ H].
    assert (E : eqb y y = true) by now apply eqb_spec.
    now rewrite E in H.
  - now apply NoDup_filter.
Qed.
End DistinctFacts.

Lemma StronglySorted_app_lt {A} (R : A -> A -> Prop) (l1 l2 : list A) :
  StronglySorted R (l1 ++ l2) ->
  forall x y, In x l1 -> In y l2 -> R x y.
Proof.
  induction l1 as [|a l1 IH]; simpl; intros Hs x y Hx Hy; [contradiction|].
  inversion Hs as [|? ? Hs' Hall]; subst.
  destruct Hx as [->|Hx].
  - rewrite Forall_forall in Hall. apply Hall, in_or_app. now right.
  - now apply IH.
Qed.

(** A duplicate-free list in non-increasing order is strictly decreasing. *)
Lemma descending_strict (l : list Z) :
  NoDup l -> StronglySorted Z.ge l -> StronglySorted Z.gt l.
Proof.
  induction l as [|x l IH]; intros Hnd Hs; [constructor|].
  inversion Hnd as [|? ? Hnotin Hnd']; subst.
  inversion Hs as [|? ? Hs' Hall]; subst.
  constructor; [now apply IH|].
  rewrite Forall_forall in *. intros y Hy.
  specialize (Hall y Hy).
  assert (x <> y) by (intros ->; contradiction).
  lia.
Qed.

Lemma StronglySorted_map {A B} (f : A -> B) (R : B -> B -> Prop)
  (l : list A) :
  StronglySorted (fun a b => R (f a) (f b)) l -> StronglySorted R (map f l).
Proof.
  induction 1 as [|x l Hs IH Hall]; simpl; constructor; [exact IH|].
  rewrite Forall_forall in *. intros y Hy.
  apply in_map_iff in Hy. destruct Hy as [a [<- Ha]]. now apply Hall.
Qed.

Lemma StronglySorted_weaken {A} (R S : A -> A -> Prop) (l : list A) :
  (forall x y, R x y -> S x y) -> StronglySorted R l -> StronglySorted S l.
Proof.
  intros HRS. induction 1 as [|x l Hs IH Hall]; constructor; [exact IH|].
  eapply Forall_impl; [|exact Hall]. intros y. apply HRS.
Qed.

Lemma StronglySorted_firstn {A} (R : A -> A -> Prop) (n : nat)
  (l : list A) :
  StronglySorted R l -> StronglySorted R (firstn n l).
Proof.
  intros Hs. revert n.
  induction Hs as [|x l Hs IH Hall]; intros [|n]; simpl; try constructor.
  - apply IH.
  - rewrite Forall_forall in *. intros y Hy. apply Hall.
    rewrite <- (firstn_skipn n l). apply in_or_app. now left.
Qed.

(* ===================================================================== *)
(** * The monad and the connection                                       *)
(* ===================================================================== *)

(** Reading never fails and never touches the database file. *)
Lemma getConnection_ok (w : World) :
  exists c, getConnection w = (Ok c, set_connection (Some c) w).
Proof.
  unfold getConnection. destruct w as [d [c|]]; simpl;
    eexists; reflexivity.
Qed.

Lemma select_ok {A} (q : Database -> A) (w : World) :
  fst ((conn <- getConnection ;; rows <- run_select conn q ;; ret rows) w)
  = Ok (q (db w)).
Proof.
  unfold bind, run_select, ret.
  destruct (getConnection_ok w) as [c Hc]. rewrite Hc. reflexivity.
Qed.

Lemma getOverview_ok (fromDate toDate : option Date) (limit : nat)
  (w : World) :
  fst (getOverview fromDate toDate limit w)
  = Ok (overview_query fromDate toDate limit (db w)).
Proof. apply select_ok. Qed.

Lemma getAppUsageForDate_ok (logicalDate : Date) (w : World) :
  fst (getAppUsageForDate logicalDate w)
  = Ok (app_usage_query logicalDate (db w)).
Proof. apply select_ok. Qed.

(* ===================================================================== *)
(** * getOverview                                                        *)
(* ===================================================================== *)

Lemma Zeqb_spec (x y : Z) : (x =? y) = true <-> x = y.
Proof. apply Z.eqb_eq. Qed.

Lemma newest_first_total (a b : DailySummary) :
  newest_first a b = false -> newest_first b a = true.
Proof. unfold newest_first. rewrite Z.leb_gt, Z.leb_le. lia. Qed.

Lemma newest_first_trans (a b c : DailySummary) :
  newest_first a b = true -> newest_first b c = true ->
  newest_first a c = true.
Proof. unfold newest_first. rewrite !Z.leb_le. lia. Qed.

(** The groups are the qualifying dates. *)
Lemma overview_groups_dates (fromDate toDate : option Date) (d : Database)
  (date : Date) :
  In date (map logical_date (overview_groups fromDate toDate d))
  <-> qualifies d fromDate toDate date.
Proof.
  unfold overview_groups, qualifies.
  rewrite in_map_iff. split.
  - intros [s [Hs Hin]]. rewrite sort_in, in_map_iff in Hin.
    destruct Hin as [date' [<- Hin]]. simpl in Hs. subst date'.
    rewrite (distinct_in Z.eqb Zeqb_spec), in_map_iff in Hin.
    destruct Hin as [r [Hr Hin]]. rewrite filter_In in Hin.
    exists r. tauto.
  - intros [r [Hin [Hrange Hdate]]].
    eexists. split; [|rewrite sort_in; apply in_map].
    + reflexivity.
    + rewrite (distinct_in Z.eqb Zeqb_spec), in_map_iff.
      exists r. rewrite filter_In. tauto.
Qed.

Lemma overview_groups_NoDup (fromDate toDate : option Date) (d : Database) :
  NoDup (map logical_date (overview_groups fromDate toDate d)).
Proof.
  unfold overview_groups.
  set (rows := filter _ _). set (groups := distinct _ _).
  apply (Permutation_NoDup (l := groups)).
  - transitivity (map logical_date (map (overview_row d rows) groups)).
    + rewrite map_map. simpl. rewrite map_id. reflexivity.
    + apply Permutation_map, sort_perm.
  - apply (distinct_NoDup Z.eqb Zeqb_spec).
Qed.

Lemma overview_groups_descending (fromDate toDate : option Date)
  (d : Database) :
  StronglySorted Z.gt (map logical_date (overview_groups fromDate toDate d)).
Proof.
  apply descending_strict; [apply overview_groups_NoDup|].
  apply StronglySorted_map. unfold overview_groups.
  eapply StronglySorted_weaken;
    [|apply (sort_strongly_sorted newest_first newest_first_total
               newest_first_trans)].
  intros a b. unfold newest_first. rewrite Z.leb_le. lia.
Qed.

Lemma firstn_full_or_all {A} (n : nat) (l : list A) :
  firstn n l = l \/ (List.length (firstn n l) = n /\ skipn n l <> []).
Proof.
  destruct (Nat.le_gt_cases (List.length l) n) as [H|H].
  - left. now apply firstn_all2.
  - right. split.
    + apply firstn_length_le. lia.
    + intros E. apply (f_equal (@List.length A)) in E.
      rewrite length_skipn in E. simpl in E. lia.
Qed.

(** What the LIMIT leaves out is older than everything it keeps. *)
Lemma overview_query_cut (fromDate toDate : option Date) (n : nat)
  (d : Database) (date : Date) :
  qualifies d fromDate toDate date ->
  In date (map logical_date (overview_query fromDate toDate n d))
  \/ (List.length (overview_query fromDate toDate n d) = n
      /\ forall s, In s (overview_query fromDate toDate n d) ->
                   date < logical_date s).
Proof.
  intros Hq. apply overview_groups_dates in Hq.
  unfold overview_query.
  pose proof (overview_groups_descending fromDate toDate d) as Hs.
  set (full := overview_groups fromDate toDate d) in *.
  rewrite <- (firstn_skipn n full), map_app in Hq, Hs.
  apply in_app_or in Hq. destruct Hq as [Hq|Hq]; [now left|right].
  split.
  - destruct (firstn_full_or_all n full) as [E|[E _]]; [|exact E].
    assert (Hnil : skipn n full = []).
    { apply (f_equal (@List.length _)) in E.
      rewrite length_firstn in E.
      apply skipn_all2. lia. }
    rewrite Hnil in Hq. contradiction.
  - intros s Hin.
    assert (logical_date s > date); [|lia].
    apply (StronglySorted_app_lt Z.gt _ _ Hs); [|exact Hq].
    now apply in_map.
Qed.

(** C4. For every store state, range and limit [n], [getOverview] returns
    at most [n] summaries; their dates are strictly decreasing (newest
    first, one entry per date); each one is a qualifying date; and a
    qualifying date that is not returned is older than every returned one,
    in a result that is full.  So the result is exactly the [n] most recent
    qualifying dates. *)
Theorem getOverview_newest_within_limit (w : World)
  (fromDate toDate : option Date) (n : nat) :
  exists days,
    fst (getOverview fromDate toDate n w) = Ok days
    /\ (List.length days <= n)%nat
    /\ StronglySorted Z.gt (map logical_date days)
    /\ (forall s, In s days ->
          qualifies (db w) fromDate toDate (logical_date s))
    /\ (forall date, qualifies (db w) fromDate toDate date ->
          In date (map logical_date days)
          \/ (List.length days = n
              /\ forall s, In s days -> date < logical_date s)).
Proof.
  exists (overview_query fromDate toDate n (db w)).
  split; [apply getOverview_ok|].
  split; [apply firstn_le_length|].
  split.
  { unfold overview_query. rewrite <- firstn_map.
    apply StronglySorted_firstn, overview_groups_descending. }
  split.
  - intros s Hin. apply overview_groups_dates, in_map.
    unfold overview_query in Hin.
    rewrite <- (firstn_skipn n (overview_groups _ _ _)).
    apply in_or_app. now left.
  - intros date Hq. now apply overview_query_cut.
Qed.

(** A listed date has a window event; its keystroke total is the sum of
    its key samples, 0 when it has none. *)
Lemma overview_query_entry (fromDate toDate : option Date) (n : nat)
  (d : Database) (s : DailySummary) :
  In s (overview_query fromDate toDate n d) ->
  qualifies d fromDate toDate (logical_date s)
  /\ ((forall k, In k (key_events d) -> k_logical_date k <> logical_date s)
      -> total_keys s = 0).
Proof.
  intros Hin.
  assert (Hfull : In s (overview_groups fromDate toDate d)).
  { unfold overview_query in Hin.
    rewrite <- (firstn_skipn n (overview_groups _ _ _)).
    apply in_or_app. now left. }
  split; [now apply overview_groups_dates, in_map|].
  intros Hnokeys. unfold overview_groups in Hfull.
  rewrite sort_in, in_map_iff in Hfull.
  destruct Hfull as [date [<- _]]. simpl in *.
  replace (filter _ (key_events d)) with (@nil KeyEventRow); [reflexivity|].
  symmetry. induction (key_events d) as [|k l IH]; [reflexivity|]. simpl.
  destruct (k_logical_date k =? date) eqn:E.
  - apply Z.eqb_eq in E. exfalso. apply (Hnokeys k); [now left|exact E].
  - apply IH. intros k' Hk'. apply Hnokeys. now right.
Qed.

(** The range filter of the query is the range of the request. *)
Lemma qualifies_in_range (d : Database) (fromDate toDate : option Date)
  (date : Date) :
  qualifies d fromDate toDate date
  <-> has_window_event d date /\ date_in_range fromDate toDate date.
Proof.
  unfold qualifies, has_window_event, date_in_range, in_range. split.
  - intros [r [Hin [Hrange <-]]]. apply andb_prop in Hrange.
    destruct Hrange as [Hf Ht]. split; [exists r; auto|].
    split; [destruct fromDate|destruct toDate]; try exact I;
      now apply Z.leb_le.
  - intros [[r [Hin <-]] [Hf Ht]]. exists r.
    split; [exact Hin|]. split; [|reflexivity].
    apply andb_true_intro.
    split; [destruct fromDate|destruct toDate]; try reflexivity;
      now apply Z.leb_le.
Qed.

(** A listed date counts at least one application: its group holds the
    window event that made it a group. *)
Lemma overview_query_unique_apps (fromDate toDate : option Date) (n : nat)
  (d : Database) (s : DailySummary) :
  In s (overview_query fromDate toDate n d) -> (1 <= unique_apps s)%nat.
Proof.
  intros Hin.
  assert (Hfull : In s (overview_groups fromDate toDate d)).
  { unfold overview_query in Hin.
    rewrite <- (firstn_skipn n (overview_groups _ _ _)).
    apply in_or_app. now left. }
  unfold overview_groups in Hfull.
  rewrite sort_in, in_map_iff in Hfull.
  destruct Hfull as [date [<- Hdate]].
  rewrite (distinct_in Z.eqb Zeqb_spec), in_map_iff in Hdate.
  destruct Hdate as [r [Hr Hin']]. simpl.
  assert (Happ : In (w_app_name r)
                   (distinct String.eqb
                      (map w_app_name
                         (filter (fun w => w_logical_date w =? date)
                            (filter (in_range fromDate toDate)
                               (window_events d)))))).
  { apply (distinct_in String.eqb String.eqb_eq), in_map, filter_In.
    split; [exact Hin'|]. now apply Z.eqb_eq. }
  destruct (distinct String.eqb _); [contradiction|simpl; lia].
Qed.

(** C2, as the code has it.  For every range and limit, the overview lists
    a logical date only if it lies in the range and a window event carries
    it: a date with no recorded events is left out, not zero-filled.  Each
    date of the range that does have a window event is listed, unless the
    limit cut it off as older than the [limit] dates kept.  A listed date
    counts at least one application, and the only zero-filling is
    [total_keys = 0] for a listed date without key samples. *)
Theorem getOverview_lists_event_days_only (w : World)
  (fromDate toDate : option Date) (limit : nat) :
  exists days,
    fst (getOverview fromDate toDate limit w) = Ok days
    /\ (forall s, In s days ->
          has_window_event (db w) (logical_date s)
          /\ date_in_range fromDate toDate (logical_date s)
          /\ (1 <= unique_apps s)%nat
          /\ ((forall k, In k (key_events (db w)) ->
                         k_logical_date k <> logical_date s) ->
              total_keys s = 0))
    /\ (forall date, no_recorded_events (db w) date ->
          ~ In date (map logical_date days))
    /\ (forall date,
          has_window_event (db w) date ->
          date_in_range fromDate toDate date ->
          In date (map logical_date days)
          \/ (List.length days = limit
              /\ forall s, In s days -> date < logical_date s)).
Proof.
  exists (overview_query fromDate toDate limit (db w)).
  split; [apply getOverview_ok|].
  split; [|split].
  - intros s Hin.
    pose proof (overview_query_unique_apps _ _ _ _ _ Hin) as Happs.
    apply overview_query_entry in Hin. destruct Hin as [Hq Hkeys].
    apply qualifies_in_range in Hq. tauto.
  - intros date [Hnone _] Hin. apply in_map_iff in Hin.
    destruct Hin as [s [<- Hin]].
    apply overview_query_entry in Hin.
    destruct Hin as [[r [Hr [_ Hdate]]] _].
    now apply (Hnone r).
  - intros date Hev Hrange. apply overview_query_cut.
    apply qualifies_in_range. now split.
Qed.

(** C2, as the specification words it, fails: with events on days 10 and
    12 only, the overview of the range 10..12 (limit 30) has two entries,
    and day 11, in range and without events, is not among them. *)
Lemma getOverview_omits_empty_day :
  date_in_range (Some 10) (Some 12) 11
  /\ no_recorded_events gap_days 11
  /\ fst (getOverview (Some 10) (Some 12) 30 (loaded gap_days))
     = Ok [ {| logical_date := 12; total_keys := 0; unique_apps := 1 |};
            {| logical_date := 10; total_keys := 0; unique_apps := 1 |} ]
  /\ (forall days,
        fst (getOverview (Some 10) (Some 12) 30 (loaded gap_days)) = Ok days ->
        ~ exists s, In s days /\ logical_date s = 11).
Proof.
  split; [unfold date_in_range; lia|].
  split.
  { split; simpl.
    - intros r [<-|[<-|[]]]; unfold focus; simpl; lia.
    - intros k []. }
  split; [reflexivity|].
  intros days H. vm_compute in H. injection H as <-.
  intros [s [[<-|[<-|[]]] Hs]]; discriminate Hs.
Qed.

(* ===================================================================== *)
(** * Durations: getAppUsageForDate and CategoryStats                    *)
(* ===================================================================== *)

(** The row of [event_durations] that a last event gets. *)
Lemma LEAD_snoc (rows : list WindowEventRow) (r : WindowEventRow) :
  exists eds,
    LEAD (rows ++ [r])
    = eds ++ [ {| ed_app_name := w_app_name r;
                  ed_timestamp := w_timestamp r;
                  next_timestamp := None |} ]
    /\ List.length eds = List.length rows.
Proof.
  induction rows as [|a rows [eds [IH Hlen]]].
  - exists []. split; reflexivity.
  - eexists (_ :: eds). simpl. rewrite IH. split; [reflexivity|].
    simpl. now rewrite Hlen.
Qed.

(** Rows stored in timestamp order are read back in that order. *)
Lemma select_window_events_ordered (d : Database) (day : Date)
  (rows : list WindowEventRow) :
  filter (fun r => w_logical_date r =? day) (window_events d) = rows ->
  Sorted (fun a b => w_timestamp a <= w_timestamp b) rows ->
  select_window_events day d = rows.
Proof.
  intros Hrows Hsorted. unfold select_window_events. rewrite Hrows.
  apply sort_sorted_id. clear Hrows.
  induction Hsorted as [|x l Hs IH Hhd]; constructor; [exact IH|].
  destruct Hhd; constructor. unfold by_timestamp. now apply Z.leb_le.
Qed.

Lemma app_usage_single (d : Database) (day : Date) (e : WindowEventRow) :
  select_window_events day d = [e] ->
  app_usage_query day d
  = [ {| au_app_name := w_app_name e;
         duration_seconds := 0;
         event_count := 1 |} ].
Proof.
  intros H. unfold app_usage_query, event_durations. rewrite H. simpl.
  unfold app_usage_row. simpl. rewrite String.eqb_refl. reflexivity.
Qed.

Lemma app_usage_empty (d : Database) (day : Date) :
  select_window_events day d = [] -> app_usage_query day d = [].
Proof.
  intros H. unfold app_usage_query, event_durations. now rewrite H.
Qed.

Lemma durationSecs_last (events : list WindowEvent) (e : WindowEvent) :
  durationSecs (events ++ [e]) (List.length events) e == 0.
Proof.
  unfold durationSecs.
  replace (nth_error (events ++ [e]) (List.length events + 1)) with
    (@None WindowEvent).
  - rewrite Z.sub_diag. reflexivity.
  - symmetry. apply nth_error_None. rewrite length_app. simpl. lia.
Qed.

Lemma cappedDuration_last (events : list WindowEvent) (e : WindowEvent) :
  cappedDuration (events ++ [e]) (List.length events) e == 0.
Proof.
  unfold cappedDuration. rewrite durationSecs_last.
  apply Q.min_l. discriminate.
Qed.

Lemma CategoryStats_single (e : WindowEvent) :
  Forall (fun bar => duration bar == 0) (CategoryStats [e]).
Proof.
  unfold CategoryStats, durations, loop_body. simpl.
  destruct (negb (app_name e =? LOCKEDSCREEN)%string); simpl; constructor.
  - simpl. rewrite (cappedDuration_last [] e). reflexivity.
  - constructor.
Qed.

(** C5. The server query gives the final event of an ordered day a NULL
    successor and therefore zero seconds, and the client loop gives the last
    element of its array zero seconds.  A day with a single event yields one
    row of zero seconds (the chart: bars of zero length only), an empty day
    yields no rows, and both computations return normally. *)
Theorem final_event_zero_duration :
  (* getAppUsageForDate *)
  (forall (w : World) (day : Date),
      (exists usage, fst (getAppUsageForDate day w) = Ok usage)
      /\ (filter (fun r => w_logical_date r =? day) (window_events (db w))
          = [] ->
          fst (getAppUsageForDate day w) = Ok [])
      /\ (forall evs e,
            filter (fun r => w_logical_date r =? day) (window_events (db w))
            = evs ++ [e] ->
            Sorted (fun a b => w_timestamp a <= w_timestamp b) (evs ++ [e]) ->
            (exists eds final,
                event_durations day (db w) = eds ++ [final]
                /\ List.length eds = List.length evs
                /\ ed_app_name final = w_app_name e
                /\ ed_timestamp final = w_timestamp e
                /\ next_timestamp final = None
                /\ row_duration final == 0)
            /\ (evs = [] ->
                fst (getAppUsageForDate day w)
                = Ok [ {| au_app_name := w_app_name e;
                          duration_seconds := 0;
                          event_count := 1 |} ])))
  (* CategoryStats *)
  /\ (forall (events : list WindowEvent) (e : WindowEvent),
         cappedDuration (events ++ [e]) (List.length events) e == 0)
  /\ (forall e : WindowEvent,
         Forall (fun bar => duration bar == 0) (CategoryStats [e]))
  /\ CategoryStats [] = [].
Proof.
  split; [|split; [apply cappedDuration_last|split;
                   [apply CategoryStats_single|reflexivity]]].
  intros w day. rewrite getAppUsageForDate_ok.
  split; [eauto|]. split.
  - intros Hnone. f_equal. apply app_usage_empty.
    unfold select_window_events. now rewrite Hnone.
  - intros evs e Hrows Hsorted.
    pose proof (select_window_events_ordered (db w) day _ Hrows Hsorted)
      as Hsel.
    split.
    + unfold event_durations. rewrite Hsel.
      destruct (LEAD_snoc evs e) as [eds [Heds Hlen]].
      eexists eds, _. split; [exact Heds|].
      repeat split; try reflexivity. exact Hlen.
    + intros ->. f_equal. now apply app_usage_single.
Qed.

(** The specification's morning is an ordered day of three events; a day
    with the first of them alone is a single-event day. *)
Lemma final_event_zero_duration_witness :
  (exists eds final,
      event_durations 0 morning = eds ++ [final]
      /\ List.length eds = 2%nat
      /\ ed_app_name final = "Chrome"
      /\ ed_timestamp final = clock 9 40
      /\ next_timestamp final = None
      /\ row_duration final == 0)
  /\ fst (getAppUsageForDate 0
            (loaded (only_window_events [focus (clock 9 0) "Chrome" 0])))
     = Ok [ {| au_app_name := "Chrome";
               duration_seconds := 0;
               event_count := 1 |} ].
Proof.
  split.
  - refine (proj1 (proj2 (proj2 (proj1 final_event_zero_duration
                                   (loaded morning) 0))
                     [focus (clock 9 0) "Chrome" 0;
                      focus (clock 9 5) "VSCode" 0]
                     (focus (clock 9 40) "Chrome" 0) eq_refl _)).
    repeat constructor; vm_compute; discriminate.
  - refine (proj2 (proj2 (proj2 (proj1 final_event_zero_duration
                                   (loaded (only_window_events
                                      [focus (clock 9 0) "Chrome" 0])) 0))
                     [] (focus (clock 9 0) "Chrome" 0) eq_refl _) eq_refl).
    repeat constructor.
Defined.

(** C1 on the server query.  On the specification's own example the
    35-minute gap after VSCode is attributed in full: the query has no
    gap cap, so VSCode gets 2100 seconds, not 1800. *)
Theorem getAppUsageForDate_attributes_whole_gap :
  exists vscode chrome,
    fst (getAppUsageForDate 0 (loaded morning)) = Ok [vscode; chrome]
    /\ au_app_name vscode = "VSCode"
    /\ duration_seconds vscode == 35 * 60
    /\ ~ duration_seconds vscode == gap_cap
    /\ au_app_name chrome = "Chrome"
    /\ duration_seconds chrome == 5 * 60.
Proof.
  do 2 eexists. split; [vm_compute; reflexivity|].
  repeat split; simpl; try reflexivity. discriminate.
Qed.

(** The chart on the same example: VSCode is capped at 30 minutes. *)
Lemma CategoryStats_morning :
  exists vscode chrome,
    CategoryStats (map to_WindowEvent (window_events morning))
    = [vscode; chrome]
    /\ name vscode = "VSCode" /\ duration vscode == gap_cap
    /\ name chrome = "Chrome" /\ duration chrome == 5 * 60.
Proof.
  do 2 eexists. split; [vm_compute; reflexivity|].
  repeat split; reflexivity.
Qed.

(** C3 on the server query.  A day with a locked-screen event: the query
    returns a row for the sentinel, with the ten minutes the screen stayed
    locked, next to the row of the real application. *)
Theorem getAppUsageForDate_lists_locked_screen :
  exists chrome locked,
    fst (getAppUsageForDate 0 (loaded locked_day)) = Ok [chrome; locked]
    /\ au_app_name chrome = "Chrome"
    /\ au_app_name locked = LOCKEDSCREEN
    /\ duration_seconds locked == 10 * 60
    /\ event_count locked = 1%nat.
Proof.
  do 2 eexists. split; [vm_compute; reflexivity|].
  repeat split; reflexivity.
Qed.

(** ** The client loop against the specification's deriver *)

Lemma dict_get_set {V} (k k' : string) (v : V) (o : Dict V) :
  dict_get k (dict_set k' v o)
  = if String.eqb k' k then Some v else dict_get k o.
Proof.
  induction o as [|[a b] o IH]; simpl; [reflexivity|].
  destruct (String.eqb a k') eqn:Eak'; simpl.
  - apply String.eqb_eq in Eak'. subst a.
    destruct (String.eqb k' k); reflexivity.
  - rewrite IH. destruct (String.eqb a k) eqn:Eak; [|reflexivity].
    apply String.eqb_eq in Eak. subst a.
    now rewrite String.eqb_sym, Eak'.
Qed.

Lemma dict_set_keys {V} (k : string) (v : V) (o : Dict V) (x : string) :
  In x (map fst (dict_set k v o)) <-> x = k \/ In x (map fst o).
Proof.
  induction o as [|[a b] o IH]; simpl.
  - intuition congruence.
  - destruct (String.eqb a k) eqn:E; simpl.
    + apply String.eqb_eq in E. subst a. intuition congruence.
    + rewrite IH. intuition congruence.
Qed.

Lemma dict_set_NoDup {V} (k : string) (v : V) (o : Dict V) :
  NoDup (map fst o) -> NoDup (map fst (dict_set k v o)).
Proof.
  induction o as [|[a b] o IH]; simpl; intros Hnd.
  - repeat constructor. intros [].
  - inversion Hnd as [|? ? Hnotin Hnd']; subst.
    destruct (String.eqb a k) eqn:E; simpl.
    + constructor; assumption.
    + constructor; [|now apply IH].
      rewrite dict_set_keys. intros [->|H]; [|contradiction].
      now rewrite String.eqb_refl in E.
Qed.

Lemma dict_get_In {V} (k : string) (v : V) (o : Dict V) :
  NoDup (map fst o) -> In (k, v) o -> dict_get k o = Some v.
Proof.
  induction o as [|[a b] o IH]; simpl; intros Hnd Hin; [contradiction|].
  inversion Hnd as [|? ? Hnotin Hnd']; subst.
  destruct Hin as [E|Hin].
  - injection E as -> ->. now rewrite String.eqb_refl.
  - destruct (String.eqb a k) eqn:E; [|now apply IH].
    apply String.eqb_eq in E. subst a. exfalso. apply Hnotin.
    apply (in_map fst) in Hin. exact Hin.
Qed.

Lemma or_zero_Some (q : Q) : or_zero (Some q) == q.
Proof.
  unfold or_zero. destruct (Qeq_bool q 0) eqn:E; [|reflexivity].
  apply Qeq_bool_eq in E. now rewrite E.
Qed.

Lemma loop_body_get (events : list WindowEvent) (acc : Dict Q) (i : nat)
  (app : string) :
  or_zero (dict_get app (loop_body events acc i))
  == or_zero (dict_get app acc) + loop_share events app i.
Proof.
  unfold loop_body, loop_share.
  destruct (nth_error events i) as [e|]; [|ring].
  rewrite dict_get_set.
  destruct (String.eqb (app_name e) app) eqn:E.
  - apply String.eqb_eq in E. subst app. apply or_zero_Some.
  - ring.
Qed.

Lemma durations_fold (events : list WindowEvent) (app : string)
  (indices : list nat) (acc : Dict Q) :
  or_zero (dict_get app (fold_left (loop_body events) indices acc))
  == or_zero (dict_get app acc) + Qsum (map (loop_share events app) indices).
Proof.
  revert acc. induction indices as [|i indices IH]; intros acc; simpl.
  - ring.
  - rewrite IH, loop_body_get. ring.
Qed.

Lemma durations_fold_NoDup (events : list WindowEvent) (indices : list nat)
  (acc : Dict Q) :
  NoDup (map fst acc) ->
  NoDup (map fst (fold_left (loop_body events) indices acc)).
Proof.
  revert acc. induction indices as [|i indices IH]; intros acc Hnd; simpl.
  - exact Hnd.
  - apply IH. unfold loop_body.
    destruct (nth_error events i); [now apply dict_set_NoDup|exact Hnd].
Qed.

(** One turn of the loop attributes what the specification attributes. *)
Lemma loop_share_spec (events : list WindowEvent) (app : string) (i : nat) :
  loop_share events app i == spec_share events app i.
Proof.
  unfold loop_share, spec_share, spec_duration.
  destruct (nth_error events i) as [e|] eqn:Ei; [|reflexivity].
  destruct (String.eqb (app_name e) app); [|reflexivity].
  unfold cappedDuration, durationSecs, getTime, gap_cap.
  rewrite Nat.add_1_r.
  destruct (nth_error events (S i)) as [e'|]; [reflexivity|].
  rewrite Z.sub_diag. rewrite Q.min_l; [reflexivity|discriminate].
Qed.

Lemma Qsum_map_ext {A} (f g : A -> Q) (l : list A) :
  (forall x, f x == g x) -> Qsum (map f l) == Qsum (map g l).
Proof.
  intros H. induction l as [|x l IH]; simpl; [reflexivity|].
  now rewrite H, IH.
Qed.

(** The dictionary built by the loop holds, for every application, the sum
    of the capped gaps that follow its events. *)
Lemma durations_total (events : list WindowEvent) (app : string) :
  or_zero (dict_get app (durations events)) == spec_total events app.
Proof.
  unfold durations, spec_total. rewrite durations_fold. simpl.
  rewrite (Qsum_map_ext _ _ _ (loop_share_spec events app)). ring.
Qed.

Lemma durations_NoDup (events : list WindowEvent) :
  NoDup (map fst (durations events)).
Proof. apply durations_fold_NoDup. constructor. Qed.

(** No gap counts for more than the cap. *)
Lemma cappedDuration_le_cap (events : list WindowEvent) (i : nat)
  (e : WindowEvent) :
  (cappedDuration events i e <= gap_cap)%Q.
Proof. unfold cappedDuration, gap_cap. apply Q.le_min_r. Qed.

Lemma durations_fold_keys (events : list WindowEvent) (indices : list nat)
  (acc : Dict Q) (k : string) :
  In k (map fst (fold_left (loop_body events) indices acc)) ->
  In k (map fst acc) \/ In k (map app_name events).
Proof.
  revert acc. induction indices as [|i indices IH]; intros acc; simpl.
  - now left.
  - intros H. apply IH in H. destruct H as [H|H]; [|now right].
    unfold loop_body in H.
    destruct (nth_error events i) as [e|] eqn:Ei; [|now left].
    apply dict_set_keys in H. destruct H as [->|H]; [right|now left].
    apply in_map. eapply nth_error_In, Ei.
Qed.

Lemma by_duration_le (a b : string * Q) :
  by_duration a b = true <-> (snd b <= snd a)%Q.
Proof. unfold by_duration. rewrite Qle_bool_iff. split; intros H; lra. Qed.

Lemma by_duration_total (a b : string * Q) :
  by_duration a b = false -> by_duration b a = true.
Proof.
  intros H. apply by_duration_le.
  destruct (Qlt_le_dec (snd a) (snd b)) as [Hlt|Hle]; [lra|].
  apply by_duration_le in Hle. congruence.
Qed.

Lemma by_duration_trans (a b c : string * Q) :
  by_duration a b = true -> by_duration b c = true ->
  by_duration a c = true.
Proof. rewrite !by_duration_le. intros; lra. Qed.

(** Every bar of the chart is an application of the day other than the
    lock-screen sentinel, with the specification's capped total; there are
    at most 8 bars, longest first. *)
Lemma CategoryStats_bars (events : list WindowEvent) :
  (List.length (CategoryStats events) <= 8)%nat
  /\ StronglySorted (fun a b => (duration b <= duration a)%Q)
       (CategoryStats events)
  /\ forall bar, In bar (CategoryStats events) ->
       name bar <> LOCKEDSCREEN
       /\ In (name bar) (map app_name events)
       /\ duration bar == spec_total events (name bar).
Proof.
  unfold CategoryStats.
  destruct events as [|e0 events'];
    [simpl; split; [lia|split; [constructor|tauto]]|].
  set (events := e0 :: events'). split; [|split].
  - rewrite length_map. apply firstn_le_length.
  - apply StronglySorted_map, StronglySorted_firstn. simpl.
    eapply StronglySorted_weaken;
      [|apply (sort_strongly_sorted by_duration by_duration_total
                 by_duration_trans)].
    intros a b. apply by_duration_le.
  - intros bar Hin. apply in_map_iff in Hin.
    destruct Hin as [[app total] [<- Hin]]. simpl.
    assert (Hin' : In (app, total)
                     (filter (fun en => negb (String.eqb (fst en) LOCKEDSCREEN))
                        (durations events))).
    { apply (sort_in by_duration).
      rewrite <- (firstn_skipn 8 (sort _ _)). apply in_or_app. now left. }
    apply filter_In in Hin'. destruct Hin' as [Hdict Hnot]. simpl in Hnot.
    split; [|split].
    + intros ->. now rewrite String.eqb_refl in Hnot.
    + apply (in_map fst) in Hdict. simpl in Hdict.
      apply durations_fold_keys in Hdict. destruct Hdict as [[]|H]. exact H.
    + rewrite <- durations_total.
      rewrite (dict_get_In _ _ _ (durations_NoDup events) Hdict).
      symmetry. apply or_zero_Some.
Qed.

(* ===================================================================== *)
(** * Writes: addNote, saveBlog and their routes                         *)
(* ===================================================================== *)

Lemma module_world_state (d : Database) (opened : bool) :
  module_state (module_world d opened).
Proof. destruct opened; [right|left]; reflexivity. Qed.

Lemma module_state_world (w : World) :
  module_state w -> exists opened, w = module_world (db w) opened.
Proof.
  destruct w as [d c]. intros [H|H]; simpl in H; subst c.
  - now exists false.
  - now exists true.
Qed.

(** No operation of the module or route of the server leaves these
    worlds: a connection with write access never comes to exist. *)
Lemma module_state_preserved (w : World) :
  module_state w ->
  module_state (snd (closeConnection w))
  /\ (forall day, module_state (snd (getDayData day w)))
  /\ (forall fromDate toDate n,
         module_state (snd (getOverview fromDate toDate n w)))
  /\ (forall day, module_state (snd (getAppUsageForDate day w)))
  /\ (forall t c day, module_state (snd (addNote t c day w)))
  /\ (forall day c, module_state (snd (saveBlog day c w)))
  /\ (forall body, module_state (snd (post_note body w)))
  /\ (forall day body, module_state (snd (put_blog day body w))).
Proof.
  intros H. apply module_state_world in H. destruct H as [opened ->].
  set (d := db w). clearbody d. clear w.
  repeat split; intros;
    try (destruct opened; (now left) || (now right)).
  - unfold post_note. destruct body as [| |b]; simpl;
      try (destruct opened; (now left) || (now right)).
    unfold try_catch, bind. simpl.
    destruct (note_body_fields b) as [[[t c] day]|];
      destruct opened; (now left) || (now right).
  - unfold put_blog. destruct (blog_content_field body);
      destruct opened; (now left) || (now right).
Qed.

(** The module only ever holds a read-only connection, so DuckDB refuses
    every INSERT it sends: the call throws and the file is untouched. *)
Lemma run_insert_module_world (stmt : Database -> Database) (d : Database)
  (opened : bool) :
  (conn <- getConnection ;; run_insert conn stmt) (module_world d opened)
  = (Throw read_only_error, module_world d true).
Proof. destruct opened; reflexivity. Qed.

Lemma addNote_throws (t : Timestamp) (c : string) (logicalDate : Date)
  (d : Database) (opened : bool) :
  addNote t c logicalDate (module_world d opened)
  = (Throw read_only_error, module_world d true).
Proof. apply run_insert_module_world. Qed.

Lemma saveBlog_throws (logicalDate : Date) (c : string) (d : Database)
  (opened : bool) :
  saveBlog logicalDate c (module_world d opened)
  = (Throw read_only_error, module_world d true).
Proof. apply run_insert_module_world. Qed.

Lemma getDayData_notes (logicalDate : Date) (d : Database) (opened : bool) :
  exists data,
    getDayData logicalDate (module_world d opened)
    = (Ok data, module_world d true)
    /\ dd_notes data = map to_Note (select_notes logicalDate d).
Proof. destruct opened; eexists; split; reflexivity. Qed.

(** ** What the two statements do where they are executed

    The INSERT ... ON CONFLICT statements themselves, applied to the
    tables, as a connection that accepts writes applies them. *)

Lemma upsert_note_fresh (t : Timestamp) (c : string) (logicalDate : Date)
  (rows : list NoteRow) :
  ~ In t (map n_timestamp rows) ->
  upsert_note t c logicalDate rows
  = rows ++ [ {| n_timestamp := t;
                 n_content := c;
                 n_logical_date := logicalDate |} ].
Proof.
  intros Hfresh. unfold upsert_note.
  replace (existsb _ rows) with false; [reflexivity|].
  symmetry. apply not_true_is_false. intros H.
  apply existsb_exists in H. destruct H as [r [Hin Hr]].
  apply Z.eqb_eq in Hr. apply Hfresh. rewrite <- Hr. now apply in_map.
Qed.

Lemma upsert_note_conflict (t : Timestamp) (c : string) (logicalDate : Date)
  (rows : list NoteRow) :
  In t (map n_timestamp rows) ->
  upsert_note t c logicalDate rows
  = map (fun r => if n_timestamp r =? t then set_content c r else r) rows.
Proof.
  intros Hin. unfold upsert_note.
  replace (existsb _ rows) with true; [reflexivity|].
  symmetry. apply existsb_exists. apply in_map_iff in Hin.
  destruct Hin as [r [Hr Hin]]. exists r. split; [exact Hin|].
  now apply Z.eqb_eq.
Qed.

(** Two writes at one timestamp: one row, the second content, the first
    logical date. *)
Lemma upsert_note_twice (t : Timestamp) (c1 c2 : string) (d1 d2 : Date)
  (rows : list NoteRow) :
  ~ In t (map n_timestamp rows) ->
  upsert_note t c2 d2 (upsert_note t c1 d1 rows)
  = rows ++ [ {| n_timestamp := t;
                 n_content := c2;
                 n_logical_date := d1 |} ].
Proof.
  intros Hfresh. rewrite (upsert_note_fresh t c1 d1 rows Hfresh).
  rewrite upsert_note_conflict.
  - rewrite map_app. simpl. rewrite Z.eqb_refl. f_equal.
    rewrite <- (map_id rows) at 2. apply map_ext_in.
    intros r Hin. destruct (n_timestamp r =? t) eqn:E; [|reflexivity].
    apply Z.eqb_eq in E. exfalso. apply Hfresh. rewrite <- E.
    now apply in_map.
  - rewrite map_app. apply in_or_app. right. now left.
Qed.

(** The statement followed by the notes query of [getDayData]. *)
Lemma insert_note_round_trip (t : Timestamp) (c : string)
  (logicalDate : Date) (d : Database) :
  ~ In t (map n_timestamp (notes d)) ->
  In {| note_timestamp := t; content := c |}
     (map to_Note (select_notes logicalDate (insert_note t c logicalDate d))).
Proof.
  intros Hfresh. unfold select_notes, insert_note. simpl.
  rewrite (upsert_note_fresh t c logicalDate _ Hfresh).
  apply in_map_iff.
  exists {| n_timestamp := t; n_content := c; n_logical_date := logicalDate |}.
  split; [reflexivity|]. apply sort_in, filter_In. split.
  - apply in_or_app. right. now left.
  - simpl. apply Z.eqb_refl.
Qed.

Lemma upsert_blog_stored (logicalDate : Date) (c : string)
  (rows : list BlogRow) (r : BlogRow) :
  In r (upsert_blog logicalDate c rows) ->
  b_logical_date r = logicalDate -> b_content r = Some c.
Proof.
  intros Hin Hdate. unfold upsert_blog in Hin.
  destruct (existsb _ rows) eqn:Ex.
  - apply in_map_iff in Hin. destruct Hin as [r0 [Hr Hin]].
    destruct (b_logical_date r0 =? logicalDate) eqn:E.
    + now subst r.
    + subst r. apply Z.eqb_neq in E. contradiction.
  - apply in_app_or in Hin. destruct Hin as [Hin|[<-|[]]]; [|reflexivity].
    exfalso. apply not_true_iff_false in Ex. apply Ex.
    apply existsb_exists. exists r. split; [exact Hin|].
    now apply Z.eqb_eq.
Qed.

Lemma upsert_blog_present (logicalDate : Date) (c : string)
  (rows : list BlogRow) :
  In logicalDate (map b_logical_date (upsert_blog logicalDate c rows)).
Proof.
  unfold upsert_blog. destruct (existsb _ rows) eqn:Ex.
  - apply existsb_exists in Ex. destruct Ex as [r [Hin Hr]].
    apply Z.eqb_eq in Hr. apply in_map_iff.
    eexists. split; [|apply in_map, Hin]. simpl.
    rewrite <- Hr, Z.eqb_refl. reflexivity.
  - rewrite map_app. apply in_or_app. right. now left.
Qed.

(** C7 on the code.  [addNote] throws on every world the module can be
    in and leaves the database as it was, so the day summary read next
    holds the notes that were there before and no new one; through the
    route, the specification's lunch note on an empty database is answered
    with a server error and the day then has no notes. *)
Theorem addNote_then_getDayData_read_only :
  (forall (d : Database) (opened : bool) (t : Timestamp) (c : string)
          (logicalDate : Date),
      addNote t c logicalDate (module_world d opened)
      = (Throw read_only_error, module_world d true)
      /\ exists data,
           getDayData logicalDate (module_world d true)
           = (Ok data, module_world d true)
           /\ dd_notes data = map to_Note (select_notes logicalDate d))
  /\ exists w data,
       post_note lunch (loaded empty_database)
       = (Ok (ServerError "Failed to add note"), w)
       /\ fst (getDayData 0 w) = Ok data
       /\ dd_notes data = [].
Proof.
  split.
  - intros d opened t c logicalDate.
    split; [apply addNote_throws|apply getDayData_notes].
  - do 2 eexists. split; [reflexivity|]. split; reflexivity.
Qed.

(** C8, as the code has it.  A note request that is missing the
    timestamp, the content or the logical date is refused and the world,
    database and connection alike, is exactly as before: with the
    validation error (status 400) when the body parses to a JSON value
    other than null, with the route's server error (status 500) when the
    body is not JSON or is null, which fails in the parse or the
    destructuring at the head of the [try]. *)
Theorem post_note_rejects_missing_field (w : World) (r : NoteRequest) :
  lacks_field r ->
  post_note r w
  = (Ok (match r with
         | Body _ =>
             BadRequest "timestamp, content, and logical_date are required"
         | Unparsable | NullBody => ServerError "Failed to add note"
         end), w).
Proof.
  intros H. destruct r as [| |b]; [reflexivity|reflexivity|].
  unfold post_note, try_catch, bind, req_json, destructure, ret,
    note_body_fields.
  simpl in H.
  destruct (note_timestamp_field b), (note_content_field b),
    (note_logical_date_field b);
    try reflexivity.
  destruct H as [H|[H|H]]; discriminate H.
Qed.

Lemma post_note_rejects_missing_field_witness :
  post_note (Body {| note_timestamp_field := Some (clock 12 0);
                     note_content_field := None;
                     note_logical_date_field := Some 0 |})
            (loaded morning)
  = (Ok (BadRequest "timestamp, content, and logical_date are required"),
     loaded morning).
Proof.
  apply (post_note_rejects_missing_field (loaded morning)
           (Body {| note_timestamp_field := Some (clock 12 0);
                    note_content_field := None;
                    note_logical_date_field := Some 0 |})).
  right. left. reflexivity.
Defined.

(** C8, as the specification words it, fails: a request whose body is the
    JSON text null has none of the three fields, and the answer is the
    server error of the catch, not a validation error; the same holds of
    a body that is not JSON.  Nothing is stored either way. *)
Lemma post_note_null_body_server_error :
  lacks_field NullBody
  /\ post_note NullBody (loaded morning)
     = (Ok (ServerError "Failed to add note"), loaded morning)
  /\ post_note Unparsable (loaded morning)
     = (Ok (ServerError "Failed to add note"), loaded morning)
  /\ (forall error,
        fst (post_note NullBody (loaded morning)) <> Ok (BadRequest error)).
Proof.
  split; [exact I|]. split; [reflexivity|]. split; [reflexivity|].
  intros error H. discriminate H.
Qed.

(** C9 on the code.  Two [addNote] calls at one timestamp both throw on
    the read-only connection and the database keeps its contents; on an
    empty database no note is left at the timestamp, where the claim has
    one. *)
Theorem addNote_twice_read_only :
  (forall (d : Database) (opened : bool) (t : Timestamp) (c1 c2 : string)
          (d1 d2 : Date),
      addNote t c1 d1 (module_world d opened)
      = (Throw read_only_error, module_world d true)
      /\ addNote t c2 d2 (module_world d true)
         = (Throw read_only_error, module_world d true))
  /\ exists w1 w2,
       addNote (clock 12 0) "lunch" 0 (loaded empty_database)
       = (Throw read_only_error, w1)
       /\ addNote (clock 12 0) "dinner" 1 w1 = (Throw read_only_error, w2)
       /\ notes_at (clock 12 0) (db w2) = [].
Proof.
  split.
  - intros. split; apply addNote_throws.
  - do 2 eexists. repeat split.
Qed.

(** C10 on the code.  The blog route lets the empty string through its
    check (only an absent content is a validation error) but [saveBlog]
    then throws on the read-only connection, so the answer is a server
    error and nothing is stored; the note route answers the empty string
    with the validation error. *)
Theorem put_blog_empty_content_read_only :
  (forall (d : Database) (opened : bool) (logicalDate : Date),
      put_blog logicalDate {| blog_content_field := Some EmptyString |}
               (module_world d opened)
      = (Ok (ServerError "Failed to save blog"), module_world d true))
  /\ (forall (w : World) (logicalDate : Date),
         put_blog logicalDate {| blog_content_field := None |} w
         = (Ok (BadRequest "content is required"), w))
  /\ (forall (w : World) (t : Timestamp) (logicalDate : Date),
         post_note (Body {| note_timestamp_field := Some t;
                            note_content_field := Some EmptyString;
                            note_logical_date_field := Some logicalDate |})
                   w
         = (Ok (BadRequest
                  "timestamp, content, and logical_date are required"), w)).
Proof.
  split; [|split].
  - intros d opened logicalDate. unfold put_blog, try_catch, bind. simpl.
    rewrite saveBlog_throws. reflexivity.
  - reflexivity.
  - reflexivity.
Qed.

(* ===================================================================== *)
(** * The classifier                                                     *)
(* ===================================================================== *)

Section ClassifierFacts.
Variable regex_match : string -> string -> option bool.

Lemma by_priority_total (a b : CategoryRule) :
  by_priority a b = false -> by_priority b a = true.
Proof. unfold by_priority. rewrite Z.leb_gt, Z.leb_le. lia. Qed.

Lemma by_priority_trans (a b c : CategoryRule) :
  by_priority a b = true -> by_priority b c = true -> by_priority a c = true.
Proof. unfold by_priority. rewrite !Z.leb_le. lia. Qed.

(** Adding a rule in front of the declaration list: it is found first
    exactly when it matches and the rule found so far has no higher
    priority. *)
Lemma find_sort_cons (p : CategoryRule -> bool) (x : CategoryRule)
  (rules : list CategoryRule) :
  find p (sort by_priority (x :: rules))
  = match find p (sort by_priority rules) with
    | Some y => if p x && (priority y <=? priority x) then Some x else Some y
    | None => if p x then Some x else None
    end.
Proof.
  simpl. apply (find_insert by_priority by_priority_trans).
  apply (sort_strongly_sorted by_priority by_priority_total
           by_priority_trans).
Qed.

Lemma find_sort_first (p : CategoryRule -> bool)
  (before : list CategoryRule) (r : CategoryRule)
  (after : list CategoryRule) :
  p r = true ->
  (forall r', In r' before -> p r' = true -> priority r' < priority r) ->
  (forall r', In r' after -> p r' = true -> priority r' <= priority r) ->
  find p (sort by_priority (before ++ r :: after)) = Some r.
Proof.
  intros Hr Hbefore Hafter.
  induction before as [|b before IH]; simpl app; rewrite find_sort_cons.
  - rewrite Hr. simpl.
    destruct (find p (sort by_priority after)) as [y|] eqn:F; [|reflexivity].
    apply find_some in F. destruct F as [Hin Hy].
    apply sort_in in Hin.
    replace (priority y <=? priority r) with true; [reflexivity|].
    symmetry. apply Z.leb_le. now apply Hafter.
  - rewrite IH.
    + destruct (p b) eqn:Hb; [|reflexivity]. simpl.
      replace (priority r <=? priority b) with false; [reflexivity|].
      symmetry. apply Z.leb_gt. apply Hbefore; [now left|exact Hb].
    + intros r' Hin. apply Hbefore. now right.
Qed.

Lemma find_sort_none (p : CategoryRule -> bool) (rules : list CategoryRule) :
  (forall r, In r rules -> p r = false) ->
  find p (sort by_priority rules) = None.
Proof.
  intros Hnone.
  destruct (find p (sort by_priority rules)) as [y|] eqn:F; [|reflexivity].
  apply find_some in F. destruct F as [Hin Hy].
  apply sort_in in Hin. rewrite (Hnone y Hin) in Hy. discriminate.
Qed.

(** C6. Classification returns the category of the first matching rule
    in priority order, declaration order deciding between equal priorities:
    that is the matching rule [r] such that every matching rule declared
    before it has a lower priority and no matching rule declared after it
    has a higher one.  When no rule matches, the application name comes back
    unchanged.  One of the two always applies, so every subject gets a
    category. *)
Theorem classify_first_match_or_app_name (app subject : string)
  (rules : list CategoryRule) :
  (forall before r after,
      rules = before ++ r :: after ->
      rule_matches regex_match subject r = true ->
      (forall r', In r' before -> rule_matches regex_match subject r' = true ->
                  priority r' < priority r) ->
      (forall r', In r' after -> rule_matches regex_match subject r' = true ->
                  priority r' <= priority r) ->
      classify regex_match app subject rules = category r)
  /\ ((forall r, In r rules -> rule_matches regex_match subject r = false) ->
      classify regex_match app subject rules = app)
  /\ ((exists r, In r rules
                 /\ rule_matches regex_match subject r = true
                 /\ classify regex_match app subject rules = category r)
      \/ ((forall r, In r rules ->
                     rule_matches regex_match subject r = false)
          /\ classify regex_match app subject rules = app)).
Proof.
  split; [|split].
  - intros before r after -> Hr Hbefore Hafter. unfold classify.
    now rewrite (find_sort_first _ before r after Hr Hbefore Hafter).
  - intros Hnone. unfold classify. now rewrite find_sort_none.
  - unfold classify.
    destruct (find (rule_matches regex_match subject)
                (sort by_priority rules)) as [y|] eqn:F.
    + left. apply find_some in F. destruct F as [Hin Hy].
      apply sort_in in Hin. exists y. auto.
    + right. split; [|reflexivity]. intros r Hin.
      apply (find_none _ _ F). now apply sort_in.
Qed.
End ClassifierFacts.

(** The specification's example: against the rules Chrome (priority 1)
    and VSCode (priority 2), the subject "VSCode - main.py" is Coding; a
    subject no rule matches keeps its application name. *)
Lemma classify_first_match_or_app_name_witness :
  classify literal_match "VSCode" "VSCode - main.py" example_rules = "Coding"
  /\ classify literal_match "Finder" "Finder - Desktop" example_rules
     = "Finder".
Proof.
  split.
  - refine (proj1 (classify_first_match_or_app_name literal_match
                     "VSCode" "VSCode - main.py" example_rules)
              [ {| pattern := "Chrome"; category := "Browser";
                   priority := 1 |} ]
              {| pattern := "VSCode"; category := "Coding"; priority := 2 |}
              [] eq_refl eq_refl _ _).
    + intros r' [<-|[]] H. vm_compute in H. discriminate H.
    + intros r' [].
  - refine (proj1 (proj2 (classify_first_match_or_app_name literal_match
                            "Finder" "Finder - Desktop" example_rules)) _).
    intros r [<-|[<-|[]]]; reflexivity.
Defined.

(* ===================================================================== *)
(** * Instances on the sample data                                       *)
(* ===================================================================== *)

(** With limit 1 over the days 10 and 12, day 10 qualifies and is cut off:
    the one entry kept is newer. *)
Lemma getOverview_newest_within_limit_witness :
  exists days,
    fst (getOverview None None 1 (loaded gap_days)) = Ok days
    /\ (In 10 (map logical_date days)
        \/ (List.length days = 1%nat
            /\ forall s, In s days -> 10 < logical_date s)).
Proof.
  destruct (getOverview_newest_within_limit (loaded gap_days) None None 1)
    as [days [Hrun [_ [_ [_ Hcut]]]]].
  exists days. split; [exact Hrun|]. apply Hcut.
  exists (focus (clock (24 * 10 + 9) 0) "Chrome" 10).
  split; [left; reflexivity|]. split; reflexivity.
Defined.

(** Day 11 of the sample has no events and is absent from the overview of
    10..12; day 10 has one and is listed. *)
Lemma getOverview_lists_event_days_only_witness :
  exists days,
    fst (getOverview (Some 10) (Some 12) 30 (loaded gap_days)) = Ok days
    /\ ~ In 11 (map logical_date days).
Proof.
  destruct (getOverview_lists_event_days_only (loaded gap_days)
              (Some 10) (Some 12) 30) as [days [Hrun [_ [Hnone _]]]].
  exists days. split; [exact Hrun|]. apply Hnone.
  split; simpl.
  - intros r [<-|[<-|[]]]; unfold focus; simpl; lia.
  - intros k [].
Defined.

(* ===================================================================== *)
(** * The later copy of the module: writes that reach the database       *)
(* ===================================================================== *)

Lemma notes_at_fresh (t : Timestamp) (rows : list NoteRow) :
  ~ In t (map n_timestamp rows) ->
  filter (fun r => n_timestamp r =? t) rows = [].
Proof.
  intros Hfresh. induction rows as [|r rows IH]; [reflexivity|]. simpl.
  destruct (n_timestamp r =? t) eqn:E.
  - apply Z.eqb_eq in E. exfalso. apply Hfresh. now left.
  - apply IH. intros H. apply Hfresh. now right.
Qed.

(** The round trip of the specification, on the copy whose writes use a
    connection with write access: after [addNote(t, c, d)] on a database
    with no note at [t], [getDayData(d)] lists a note with timestamp [t] and
    content [c]. *)
Theorem SiteTemplate_addNote_round_trip (d : Database) (t : Timestamp)
  (c : string) (logicalDate : Date) :
  ~ In t (map n_timestamp (notes d)) ->
  exists data,
    (SiteTemplate.addNote t c logicalDate ;;;
     SiteTemplate.getDayData logicalDate) (Some d)
    = (Ok data, Some (insert_note t c logicalDate d))
    /\ In {| note_timestamp := t; content := c |} (dd_notes data).
Proof.
  intros Hfresh. eexists. split; [reflexivity|]. simpl.
  now apply insert_note_round_trip.
Qed.

Lemma SiteTemplate_addNote_round_trip_witness :
  exists data,
    (SiteTemplate.addNote (clock 12 0) "lunch" 0 ;;;
     SiteTemplate.getDayData 0) (Some empty_database)
    = (Ok data, Some (insert_note (clock 12 0) "lunch" 0 empty_database))
    /\ In {| note_timestamp := clock 12 0; content := "lunch" |}
          (dd_notes data).
Proof.
  apply SiteTemplate_addNote_round_trip. simpl. tauto.
Defined.

(** Two writes at one timestamp on that copy: one note is left at the
    timestamp, with the second content and the first logical date. *)
Theorem SiteTemplate_addNote_twice (d : Database) (t : Timestamp)
  (c1 c2 : string) (d1 d2 : Date) :
  ~ In t (map n_timestamp (notes d)) ->
  exists d',
    (SiteTemplate.addNote t c1 d1 ;;; SiteTemplate.addNote t c2 d2) (Some d)
    = (Ok tt, Some d')
    /\ notes_at t d'
       = [ {| n_timestamp := t; n_content := c2; n_logical_date := d1 |} ].
Proof.
  intros Hfresh. eexists. split; [reflexivity|].
  unfold notes_at. simpl.
  rewrite (upsert_note_twice t c1 c2 d1 d2 _ Hfresh).
  rewrite filter_app, (notes_at_fresh t _ Hfresh). simpl.
  now rewrite Z.eqb_refl.
Qed.

Lemma SiteTemplate_addNote_twice_witness :
  exists d',
    (SiteTemplate.addNote (clock 12 0) "lunch" 0 ;;;
     SiteTemplate.addNote (clock 12 0) "dinner" 1) (Some empty_database)
    = (Ok tt, Some d')
    /\ notes_at (clock 12 0) d'
       = [ {| n_timestamp := clock 12 0;
              n_content := "dinner";
              n_logical_date := 0 |} ].
Proof.
  apply SiteTemplate_addNote_twice. simpl. tauto.
Defined.

(** Saving the empty string as a daily blog on that copy succeeds: the
    date has a row afterwards and every row of the date holds the empty
    string, whatever was stored before. *)
Theorem SiteTemplate_saveBlog_empty_string (d : Database)
  (logicalDate : Date) :
  exists d',
    SiteTemplate.saveBlog logicalDate EmptyString (Some d) = (Ok tt, Some d')
    /\ In logicalDate (map b_logical_date (daily_blog d'))
    /\ forall r, In r (daily_blog d') ->
                 b_logical_date r = logicalDate ->
                 b_content r = Some EmptyString.
Proof.
  eexists. split; [reflexivity|]. simpl.
  split; [apply upsert_blog_present|].
  intros r. apply upsert_blog_stored.
Qed.
(* ===================================================================== *)
(** * The remaining queries of the module                                *)
(* ===================================================================== *)

Lemma descending_total (a b : Z) : (b <=? a) = false -> (a <=? b) = true.
Proof. rewrite Z.leb_gt, Z.leb_le. lia. Qed.

Lemma descending_trans (a b c : Z) :
  (b <=? a) = true -> (c <=? b) = true -> (c <=? a) = true.
Proof. rewrite !Z.leb_le. lia. Qed.

Lemma available_dates_query_in (d : Database) (day : Date) :
  In day (available_dates_query d)
  <-> has_window_event d day \/ has_key_event d day.
Proof.
  unfold available_dates_query, has_window_event, has_key_event.
  rewrite sort_in, (distinct_in Z.eqb Zeqb_spec), in_app_iff, !in_map_iff.
  split; (intros [[r [H1 H2]]|[k [H1 H2]]]; [left|right]; eauto).
Qed.

Lemma available_dates_query_descending (d : Database) :
  StronglySorted Z.gt (available_dates_query d).
Proof.
  unfold available_dates_query. apply descending_strict.
  - eapply Permutation_NoDup; [apply sort_perm|].
    apply (distinct_NoDup Z.eqb Zeqb_spec).
  - eapply StronglySorted_weaken;
      [|apply (sort_strongly_sorted (fun a b => b <=? a) descending_total
                 descending_trans)].
    intros a b. simpl. rewrite Z.leb_le. lia.
Qed.

Lemma getAvailableDates_ok (formatDateLabel : Date -> string) (w : World) :
  fst (getAvailableDates formatDateLabel w)
  = Ok (map (fun dateValue =>
               {| di_logical_date := dateValue;
                  label := formatDateLabel dateValue |})
          (available_dates_query (db w))).
Proof.
  unfold getAvailableDates, bind, run_select, ret.
  destruct (getConnection_ok w) as [c Hc]. rewrite Hc. reflexivity.
Qed.

Lemma available_dates_of_infos (formatDateLabel : Date -> string)
  (l : list Date) :
  map di_logical_date
    (map (fun dateValue =>
            {| di_logical_date := dateValue;
               label := formatDateLabel dateValue |}) l) = l.
Proof. rewrite map_map. simpl. apply map_id. Qed.

(** The date list holds every logical date that carries a window event or
    a key sample, each once, newest first, with its label. *)
Theorem getAvailableDates_lists_recorded_days
  (formatDateLabel : Date -> string) (w : World) :
  exists dates,
    fst (getAvailableDates formatDateLabel w) = Ok dates
    /\ StronglySorted Z.gt (map di_logical_date dates)
    /\ (forall day,
          In day (map di_logical_date dates)
          <-> has_window_event (db w) day \/ has_key_event (db w) day)
    /\ (forall info, In info dates ->
          label info = formatDateLabel (di_logical_date info)).
Proof.
  eexists. split; [apply getAvailableDates_ok|].
  rewrite available_dates_of_infos.
  split; [apply available_dates_query_descending|].
  split; [intros day; apply available_dates_query_in|].
  intros info Hin. apply in_map_iff in Hin.
  destruct Hin as [day [<- _]]. reflexivity.
Qed.

Lemma qualifies_has_window_event (d : Database)
  (fromDate toDate : option Date) (day : Date) :
  qualifies d fromDate toDate day -> has_window_event d day.
Proof. intros [r [Hin [_ Hday]]]. exists r. auto. Qed.

Lemma overview_query_dates (fromDate toDate : option Date) (n : nat)
  (d : Database) (day : Date) :
  In day (map logical_date (overview_query fromDate toDate n d)) ->
  qualifies d fromDate toDate day.
Proof.
  intros Hin. apply overview_groups_dates. unfold overview_query in Hin.
  rewrite <- (firstn_skipn n (overview_groups _ _ _)), map_app.
  apply in_or_app. now left.
Qed.

(** Every date of an overview is among the available dates, but not the
    other way round: a date that has key samples and no window event is an
    available date that no overview, whatever its range and limit, lists. *)
Theorem getOverview_within_available_dates
  (formatDateLabel : Date -> string) (w : World)
  (fromDate toDate : option Date) (n : nat) :
  exists dates days,
    fst (getAvailableDates formatDateLabel w) = Ok dates
    /\ fst (getOverview fromDate toDate n w) = Ok days
    /\ (forall day, In day (map logical_date days) ->
                    In day (map di_logical_date dates))
    /\ (forall day,
          has_key_event (db w) day -> ~ has_window_event (db w) day ->
          In day (map di_logical_date dates)
          /\ ~ In day (map logical_date days)).
Proof.
  do 2 eexists.
  split; [apply getAvailableDates_ok|].
  split; [apply getOverview_ok|].
  rewrite available_dates_of_infos. split.
  - intros day Hin. apply available_dates_query_in. left.
    eapply qualifies_has_window_event, overview_query_dates, Hin.
  - intros day Hkey Hnone. split.
    + apply available_dates_query_in. now right.
    + intros Hin. apply Hnone.
      eapply qualifies_has_window_event, overview_query_dates, Hin.
Qed.

Lemma getOverview_within_available_dates_witness :
  exists dates days,
    fst (getAvailableDates (fun _ => EmptyString)
           (loaded {| window_events := [focus (clock 9 0) "Chrome" 10];
                      key_events := [ {| k_timestamp := clock 9 0;
                                         k_key_count := 42;
                                         k_logical_date := 11 |} ];
                      notes := [];
                      daily_blog := [];
                      settings := [] |})) = Ok dates
    /\ fst (getOverview None None 30
              (loaded {| window_events := [focus (clock 9 0) "Chrome" 10];
                         key_events := [ {| k_timestamp := clock 9 0;
                                            k_key_count := 42;
                                            k_logical_date := 11 |} ];
                         notes := [];
                         daily_blog := [];
                         settings := [] |})) = Ok days
    /\ In 11 (map di_logical_date dates)
    /\ ~ In 11 (map logical_date days).
Proof.
  destruct (getOverview_within_available_dates (fun _ => EmptyString)
              (loaded {| window_events := [focus (clock 9 0) "Chrome" 10];
                         key_events := [ {| k_timestamp := clock 9 0;
                                            k_key_count := 42;
                                            k_logical_date := 11 |} ];
                         notes := [];
                         daily_blog := [];
                         settings := [] |}) None None 30)
    as [dates [days [Hd [Ho [_ H]]]]].
  exists dates, days. split; [exact Hd|]. split; [exact Ho|].
  apply H.
  - eexists. split; [left; reflexivity|reflexivity].
  - intros [r [[<-|[]] Hr]]. discriminate Hr.
Defined.

(** ** What an overview entry holds *)

Lemma SUM_Z_total (l : list Z) :
  COALESCE (SUM_Z l) 0 = fold_right Z.add 0 l.
Proof.
  destruct l as [|z l]; [reflexivity|]. unfold SUM_Z, COALESCE.
  apply fold_symmetric; intros; lia.
Qed.

Lemma in_range_same_date (fromDate toDate : option Date)
  (r r' : WindowEventRow) :
  w_logical_date r = w_logical_date r' ->
  in_range fromDate toDate r = in_range fromDate toDate r'.
Proof. unfold in_range. now intros ->. Qed.

(** Within a date that is in range, the range filter removes nothing. *)
Lemma filter_date_in_range (fromDate toDate : option Date) (day : Date)
  (r0 : WindowEventRow) (l : list WindowEventRow) :
  in_range fromDate toDate r0 = true -> w_logical_date r0 = day ->
  filter (fun r => w_logical_date r =? day)
    (filter (in_range fromDate toDate) l)
  = filter (fun r => w_logical_date r =? day) l.
Proof.
  intros Hrange Hday. induction l as [|r l IH]; [reflexivity|]. simpl.
  destruct (w_logical_date r =? day) eqn:E.
  - apply Z.eqb_eq in E.
    rewrite (in_range_same_date fromDate toDate r r0) by congruence.
    rewrite Hrange. simpl. apply Z.eqb_eq in E. rewrite E. now rewrite IH.
  - destruct (in_range fromDate toDate r); simpl; [rewrite E|]; exact IH.
Qed.

Lemma length_distinct_perm (l l' : list string) :
  Permutation l l' ->
  List.length (distinct String.eqb l) = List.length (distinct String.eqb l').
Proof.
  intros Hperm. apply Permutation_length, NoDup_Permutation.
  - apply (distinct_NoDup String.eqb String.eqb_eq).
  - apply (distinct_NoDup String.eqb String.eqb_eq).
  - intros x. rewrite !(distinct_in String.eqb String.eqb_eq).
    split; apply Permutation_in; [exact Hperm|now apply Permutation_sym].
Qed.

Lemma LEAD_app_names (rows : list WindowEventRow) :
  map ed_app_name (LEAD rows) = map w_app_name rows.
Proof. induction rows as [|r rows IH]; simpl; [|rewrite IH]; reflexivity. Qed.

Lemma app_usage_query_length (day : Date) (d : Database) :
  List.length (app_usage_query day d)
  = List.length
      (distinct String.eqb
         (map w_app_name
            (filter (fun r => w_logical_date r =? day) (window_events d)))).
Proof.
  unfold app_usage_query, event_durations, select_window_events.
  rewrite <- (Permutation_length (sort_perm longest_first _)), length_map.
  rewrite LEAD_app_names. apply length_distinct_perm, Permutation_map.
  apply Permutation_sym, sort_perm.
Qed.

(** Every entry of an overview carries the sum of all key samples of its
    date and the number of distinct applications of its date, which is at
    least one and is the number of rows [getAppUsageForDate] returns for
    the date. *)
Theorem getOverview_entry_totals (w : World)
  (fromDate toDate : option Date) (n : nat) :
  exists days,
    fst (getOverview fromDate toDate n w) = Ok days
    /\ forall s, In s days ->
         total_keys s = keys_of_day (logical_date s) (db w)
         /\ (1 <= unique_apps s)%nat
         /\ exists usage,
              fst (getAppUsageForDate (logical_date s) w) = Ok usage
              /\ unique_apps s = List.length usage.
Proof.
  eexists. split; [apply getOverview_ok|]. intros s Hin.
  assert (Hq : qualifies (db w) fromDate toDate (logical_date s)).
  { apply (overview_query_dates fromDate toDate n), in_map, Hin. }
  destruct Hq as [r0 [Hr0 [Hrange Hday]]].
  unfold overview_query in Hin.
  assert (Hfull : In s (overview_groups fromDate toDate (db w))).
  { rewrite <- (firstn_skipn n (overview_groups _ _ _)).
    apply in_or_app. now left. }
  unfold overview_groups in Hfull. rewrite sort_in, in_map_iff in Hfull.
  destruct Hfull as [day [<- _]]. simpl in *.
  rewrite (filter_date_in_range fromDate toDate day r0 _ Hrange Hday).
  split; [apply SUM_Z_total|]. split.
  - assert (Hin0 : In (w_app_name r0)
                     (distinct String.eqb
                        (map w_app_name
                           (filter (fun r => w_logical_date r =? day)
                              (window_events (db w)))))).
    { apply (distinct_in String.eqb String.eqb_eq), in_map, filter_In.
      split; [exact Hr0|]. now apply Z.eqb_eq. }
    destruct (distinct String.eqb _); [contradiction|simpl; lia].
  - eexists. split; [apply getAppUsageForDate_ok|].
    symmetry. apply app_usage_query_length.
Qed.

(** ** The rows of getAppUsageForDate *)

Lemma Qsum_app (l1 l2 : list Q) : Qsum (l1 ++ l2) == Qsum l1 + Qsum l2.
Proof.
  induction l1 as [|x l1 IH]; simpl; [ring|]. rewrite IH. ring.
Qed.

Lemma Qsum_perm (l l' : list Q) : Permutation l l' -> Qsum l == Qsum l'.
Proof.
  induction 1 as [|x l l' _ IH|x y l|l l' l'' _ IH1 _ IH2]; simpl.
  - reflexivity.
  - now rewrite IH.
  - ring.
  - now rewrite IH1.
Qed.

Lemma fold_left_Qplus (l : list Q) (a : Q) :
  fold_left Qplus l a == a + Qsum l.
Proof.
  revert a. induction l as [|x l IH]; intros a; simpl; [ring|].
  rewrite IH. ring.
Qed.

Lemma Number_SUM_Q (l : list Q) : Number (SUM_Q l) == Qsum l.
Proof.
  destruct l as [|x l]; [reflexivity|]. unfold SUM_Q, Number.
  rewrite fold_left_Qplus. ring.
Qed.

Section Partition.
Context {A : Type}.
Variable key : A -> string.

Lemma indicator_absent (k : string) (ks : list string) :
  ~ In k ks ->
  list_sum (map (fun a => if String.eqb k a then 1%nat else 0%nat) ks)
  = 0%nat.
Proof.
  induction ks as [|a ks IH]; intros Hnot; [reflexivity|]. simpl.
  destruct (String.eqb k a) eqn:E.
  - apply String.eqb_eq in E. exfalso. apply Hnot. now left.
  - apply IH. intros H. apply Hnot. now right.
Qed.

Lemma indicator_once (k : string) (ks : list string) :
  NoDup ks -> In k ks ->
  list_sum (map (fun a => if String.eqb k a then 1%nat else 0%nat) ks)
  = 1%nat.
Proof.
  induction 1 as [|a ks Hnotin Hnd IH]; intros Hin; [contradiction|]. simpl.
  destruct (String.eqb k a) eqn:E.
  - apply String.eqb_eq in E. subst a. now rewrite indicator_absent.
  - destruct Hin as [->|Hin]; [now rewrite String.eqb_refl in E|].
    now rewrite IH.
Qed.

(** Counting the elements group by group counts each of them once. *)
Lemma count_by_group (ks : list string) (l : list A) :
  NoDup ks -> (forall x, In x l -> In (key x) ks) ->
  list_sum
    (map (fun a => List.length (filter (fun x => String.eqb (key x) a) l)) ks)
  = List.length l.
Proof.
  intros Hnd. induction l as [|x l IH]; intros Hin.
  - clear. induction ks as [|a ks IHks]; simpl; [reflexivity|exact IHks].
  - assert (Hsplit : forall ks',
               list_sum
                 (map (fun a => List.length
                                  (filter (fun y => String.eqb (key y) a)
                                     (x :: l))) ks')
               = (list_sum
                    (map (fun a => if String.eqb (key x) a
                                   then 1%nat else 0%nat) ks')
                  + list_sum
                      (map (fun a => List.length
                                       (filter (fun y => String.eqb (key y) a)
                                          l)) ks'))%nat).
    { induction ks' as [|a ks' IHks]; simpl in *; [reflexivity|].
      rewrite IHks. destruct (String.eqb (key x) a); simpl; lia. }
    rewrite Hsplit, IH by (intros y Hy; apply Hin; now right).
    rewrite (indicator_once (key x) ks Hnd) by (apply Hin; now left).
    reflexivity.
Qed.

Variable f : A -> Q.

Lemma share_absent (k : string) (v : Q) (ks : list string) :
  ~ In k ks ->
  Qsum (map (fun a => if String.eqb k a then v else 0%Q) ks) == 0.
Proof.
  induction ks as [|a ks IH]; intros Hnot; [reflexivity|]. simpl.
  destruct (String.eqb k a) eqn:E.
  - apply String.eqb_eq in E. exfalso. apply Hnot. now left.
  - rewrite IH; [ring|]. intros H. apply Hnot. now right.
Qed.

Lemma share_once (k : string) (v : Q) (ks : list string) :
  NoDup ks -> In k ks ->
  Qsum (map (fun a => if String.eqb k a then v else 0%Q) ks) == v.
Proof.
  induction 1 as [|a ks Hnotin Hnd IH]; intros Hin; [contradiction|]. simpl.
  destruct (String.eqb k a) eqn:E.
  - apply String.eqb_eq in E. subst a. rewrite share_absent by assumption.
    ring.
  - destruct Hin as [->|Hin]; [now rewrite String.eqb_refl in E|].
    rewrite IH by assumption. ring.
Qed.

(** Summing group by group sums every element once. *)
Lemma sum_by_group (ks : list string) (l : list A) :
  NoDup ks -> (forall x, In x l -> In (key x) ks) ->
  Qsum (map (fun a =>
               Qsum (map f (filter (fun x => String.eqb (key x) a) l))) ks)
  == Qsum (map f l).
Proof.
  intros Hnd. induction l as [|x l IH]; intros Hin.
  - clear. induction ks as [|a ks IHks]; simpl; [reflexivity|].
    rewrite IHks. reflexivity.
  - assert (Hsplit : forall ks',
               Qsum (map (fun a =>
                            Qsum (map f (filter
                                           (fun y => String.eqb (key y) a)
                                           (x :: l)))) ks')
               == Qsum (map (fun a => if String.eqb (key x) a
                                      then f x else 0%Q) ks')
                  + Qsum (map (fun a =>
                                 Qsum (map f (filter
                                                (fun y => String.eqb (key y) a)
                                                l))) ks')).
    { induction ks' as [|a ks' IHks]; simpl in *; [ring|].
      rewrite IHks. destruct (String.eqb (key x) a); simpl; ring. }
    rewrite Hsplit, IH by (intros y Hy; apply Hin; now right).
    rewrite (share_once (key x) (f x) ks Hnd) by (apply Hin; now left).
    reflexivity.
Qed.
End Partition.

Lemma longest_first_le (a b : AppUsage) :
  longest_first a b = true <-> (duration_seconds b <= duration_seconds a)%Q.
Proof. unfold longest_first. apply Qle_bool_iff. Qed.

Lemma longest_first_total (a b : AppUsage) :
  longest_first a b = false -> longest_first b a = true.
Proof.
  intros H. apply longest_first_le.
  destruct (Qlt_le_dec (duration_seconds a) (duration_seconds b))
    as [Hlt|Hle]; [lra|].
  apply longest_first_le in Hle. congruence.
Qed.

Lemma longest_first_trans (a b c : AppUsage) :
  longest_first a b = true -> longest_first b c = true ->
  longest_first a c = true.
Proof. rewrite !longest_first_le. intros; lra. Qed.

Lemma app_usage_names (eds : list EventDuration) (groups : list string) :
  map au_app_name (map (app_usage_row eds) groups) = groups.
Proof. rewrite map_map. simpl. apply map_id. Qed.

Lemma LEAD_length (rows : list WindowEventRow) :
  List.length (LEAD rows) = List.length rows.
Proof. induction rows as [|r rows IH]; simpl; [|rewrite IH]; reflexivity. Qed.

(** [getAppUsageForDate] returns one row per application of the day,
    longest first; every row counts at least one event and the counts add up
    to the number of window events of the day. *)
Theorem getAppUsageForDate_one_row_per_app (w : World) (day : Date) :
  exists usage,
    fst (getAppUsageForDate day w) = Ok usage
    /\ NoDup (map au_app_name usage)
    /\ (forall app,
          In app (map au_app_name usage)
          <-> exists r, In r (window_events (db w))
                        /\ w_logical_date r = day /\ w_app_name r = app)
    /\ StronglySorted
         (fun a b => (duration_seconds b <= duration_seconds a)%Q) usage
    /\ (forall row, In row usage -> (1 <= event_count row)%nat)
    /\ list_sum (map event_count usage)
       = List.length
           (filter (fun r => w_logical_date r =? day) (window_events (db w))).
Proof.
  eexists. split; [apply getAppUsageForDate_ok|].
  unfold app_usage_query.
  set (eds := event_durations day (db w)).
  set (groups := distinct String.eqb (map ed_app_name eds)).
  assert (Hnames : Permutation groups
                     (map au_app_name
                        (sort longest_first (map (app_usage_row eds) groups)))).
  { rewrite <- (app_usage_names eds groups) at 1.
    apply Permutation_map, sort_perm. }
  assert (Hgroups : forall app,
             In app groups
             <-> exists r, In r (window_events (db w))
                           /\ w_logical_date r = day /\ w_app_name r = app).
  { intros app. unfold groups, eds, event_durations, select_window_events.
    rewrite (distinct_in String.eqb String.eqb_eq), LEAD_app_names.
    rewrite in_map_iff. split.
    - intros [r [Happ Hin]]. apply sort_in, filter_In in Hin.
      destruct Hin as [Hin Hday]. apply Z.eqb_eq in Hday. eauto.
    - intros [r [Hin [Hday Happ]]]. exists r. split; [exact Happ|].
      apply sort_in, filter_In. split; [exact Hin|]. now apply Z.eqb_eq. }
  split; [|split; [|split; [|split]]].
  - eapply Permutation_NoDup; [exact Hnames|].
    apply (distinct_NoDup String.eqb String.eqb_eq).
  - intros app. rewrite <- Hgroups. split; apply Permutation_in;
      [now apply Permutation_sym|exact Hnames].
  - eapply StronglySorted_weaken;
      [|apply (sort_strongly_sorted longest_first longest_first_total
                 longest_first_trans)].
    intros a b. apply longest_first_le.
  - intros row Hin. apply sort_in, in_map_iff in Hin.
    destruct Hin as [app [<- Hin]]. simpl.
    apply (distinct_in String.eqb String.eqb_eq), in_map_iff in Hin.
    destruct Hin as [e [He Hin]].
    assert (Hfil : In e (filter (fun e0 => String.eqb (ed_app_name e0) app)
                           eds)).
    { apply filter_In. split; [exact Hin|]. now apply String.eqb_eq. }
    destruct (filter _ eds); [contradiction|simpl; lia].
  - rewrite <- (Permutation_map event_count (sort_perm longest_first _)) by idtac.
    rewrite map_map. simpl.
    rewrite (count_by_group ed_app_name groups eds).
    + unfold eds, event_durations, select_window_events.
      rewrite LEAD_length.
      symmetry. apply Permutation_length, sort_perm.
    + apply (distinct_NoDup String.eqb String.eqb_eq).
    + intros e Hin. apply (distinct_in String.eqb String.eqb_eq).
      now apply in_map.
Qed.

(** ** Durations of the server query: sign, total, and the client's bars *)

Lemma EPOCH_add (a b : Z) : EPOCH a + EPOCH b == EPOCH (a + b).
Proof. unfold EPOCH. rewrite inject_Z_plus. field. Qed.

Lemma EPOCH_nonneg (a : Z) : 0 <= a -> (0 <= EPOCH a)%Q.
Proof.
  intros H. unfold EPOCH. apply Qle_shift_div_l; [reflexivity|].
  rewrite Qmult_0_l. change 0%Q with (inject_Z 0). now rewrite <- Zle_Qle.
Qed.

Lemma last_cons {A} (x d : A) (l : list A) : last (x :: l) d = last l x.
Proof.
  revert x d. induction l as [|y l IH]; intros x d; [reflexivity|].
  change (last (x :: y :: l) d) with (last (y :: l) d).
  now rewrite !IH.
Qed.

(** The gaps of a day add up to the distance between its first and its
    last event. *)
Lemma LEAD_total (first : WindowEventRow) (rest : list WindowEventRow) :
  Qsum (map row_duration (LEAD (first :: rest)))
  == EPOCH (w_timestamp (last rest first) - w_timestamp first).
Proof.
  revert first. induction rest as [|b rest IH]; intros first.
  - simpl. unfold row_duration. simpl. rewrite Z.sub_diag. reflexivity.
  - change (LEAD (first :: b :: rest))
      with ({| ed_app_name := w_app_name first;
               ed_timestamp := w_timestamp first;
               next_timestamp := Some (w_timestamp b) |} :: LEAD (b :: rest)).
    rewrite map_cons. change (Qsum (?x :: ?l)) with (x + Qsum l)%Q.
    rewrite IH, last_cons. unfold row_duration at 1. simpl.
    rewrite EPOCH_add.
    match goal with
    | |- EPOCH ?x == EPOCH ?y => replace x with y by lia
    end. reflexivity.
Qed.

Lemma LEAD_nonneg (rows : list WindowEventRow) :
  Sorted (fun a b => by_timestamp w_timestamp a b = true) rows ->
  forall e, In e (LEAD rows) -> (0 <= row_duration e)%Q.
Proof.
  induction 1 as [|r rows Hs IH Hhd]; intros e Hin; [contradiction|].
  destruct Hin as [<-|Hin]; [|now apply IH].
  unfold row_duration. simpl.
  destruct Hhd as [|r' rows' Hle]; [discriminate|].
  apply EPOCH_nonneg. unfold by_timestamp in Hle.
  apply Z.leb_le in Hle. lia.
Qed.

Lemma by_timestamp_total {R} (ts : R -> Timestamp) (x y : R) :
  by_timestamp ts x y = false -> by_timestamp ts y x = true.
Proof. unfold by_timestamp. rewrite Z.leb_gt, Z.leb_le. lia. Qed.

Lemma Qsum_nonneg (l : list Q) :
  (forall x, In x l -> (0 <= x)%Q) -> (0 <= Qsum l)%Q.
Proof.
  induction l as [|x l IH]; intros H; simpl; [discriminate|].
  assert (0 <= x)%Q by (apply H; now left).
  assert (0 <= Qsum l)%Q by (apply IH; intros y Hy; apply H; now right).
  lra.
Qed.

Lemma app_usage_row_duration (eds : list EventDuration) (app : string) :
  duration_seconds (app_usage_row eds app)
  == Qsum (map row_duration
             (filter (fun e => String.eqb (ed_app_name e) app) eds)).
Proof. unfold app_usage_row. simpl. apply Number_SUM_Q. Qed.

Lemma Qsum_map_ext_in {A} (f g : A -> Q) (l : list A) :
  (forall x, In x l -> f x == g x) -> Qsum (map f l) == Qsum (map g l).
Proof.
  induction l as [|x l IH]; intros H; simpl; [reflexivity|].
  rewrite (H x) by now left.
  rewrite IH; [reflexivity|]. intros y Hy. apply H. now right.
Qed.

(** The durations [getAppUsageForDate] returns are never negative and add
    up to the span of the day, from its first event to its last: all the
    time between two events is attributed to some application, however long
    the gap. *)
Theorem getAppUsageForDate_total_is_day_span (w : World) (day : Date) :
  exists usage,
    fst (getAppUsageForDate day w) = Ok usage
    /\ (forall row, In row usage -> (0 <= duration_seconds row)%Q)
    /\ Qsum (map duration_seconds usage) == EPOCH (day_span day (db w)).
Proof.
  eexists. split; [apply getAppUsageForDate_ok|].
  unfold app_usage_query.
  set (eds := event_durations day (db w)).
  set (groups := distinct String.eqb (map ed_app_name eds)).
  assert (Hsorted : forall e, In e eds -> (0 <= row_duration e)%Q).
  { apply LEAD_nonneg. apply sort_sorted.
    intros x y. apply by_timestamp_total. }
  split.
  - intros row Hin. apply sort_in, in_map_iff in Hin.
    destruct Hin as [app [<- _]]. rewrite app_usage_row_duration.
    apply Qsum_nonneg. intros x Hx. apply in_map_iff in Hx.
    destruct Hx as [e [<- He]]. apply Hsorted.
    apply filter_In in He. tauto.
  - rewrite <- (Qsum_perm _ _
                  (Permutation_map duration_seconds
                     (sort_perm longest_first _))).
    rewrite map_map.
    rewrite (Qsum_map_ext _ _ groups (app_usage_row_duration eds)).
    rewrite (sum_by_group ed_app_name row_duration groups eds).
    + unfold eds, event_durations, day_span.
      destruct (select_window_events day (db w)) as [|first rest];
        [reflexivity|apply LEAD_total].
    + apply (distinct_NoDup String.eqb String.eqb_eq).
    + intros e Hin. apply (distinct_in String.eqb String.eqb_eq).
      now apply in_map.
Qed.

(** ** The client's bars against the server's rows *)

(** The bars of [CategoryStats] and the rows of [getAppUsageForDate] take
    their durations from different readings of the clock (the rows from
    the stored timestamps, the bars from the text of them that the client
    parses again), so they are related here by name and number only. *)










(* ===================================================================== *)
(** * Settings                                                           *)
(* ===================================================================== *)

Section SettingsFacts.
Variable JsonValue : Type.
Variable JSON_stringify : JsonValue -> string.
Variable JSON_parse : string -> option JsonValue.

Lemma find_append {A} (p : A -> bool) (l l' : list A) :
  find p (l ++ l')
  = match find p l with
    | Some x => Some x
    | None => find p l'
    end.
Proof.
  induction l as [|x l IH]; simpl; [reflexivity|].
  destruct (p x); [reflexivity|exact IH].
Qed.

Lemma settings_fold_get (key : string) (rows : list (string * string))
  (acc : Dict (SettingValue JsonValue)) :
  dict_get key
    (fold_left (fun settings row =>
                  dict_set (fst row) (read_setting JsonValue JSON_parse (snd row)) settings) rows acc)
  = match last_setting key rows with
    | Some text => Some (read_setting JsonValue JSON_parse text)
    | None => dict_get key acc
    end.
Proof.
  revert acc. unfold last_setting.
  induction rows as [|[k v] rows IH]; intros acc; [reflexivity|].
  simpl fold_left. rewrite IH. simpl rev.
  rewrite find_append.
  destruct (find (fun r => String.eqb (fst r) key) (rev rows)) as [r|];
    [reflexivity|].
  simpl. rewrite dict_get_set.
  destruct (String.eqb k key); reflexivity.
Qed.

(** [getSettings] gives every key the reading of the last row that holds
    it, and has no entry for a key without a row. *)
Lemma settings_object_get (key : string) (rows : list (string * string)) :
  dict_get key (settings_object JsonValue JSON_parse rows)
  = match last_setting key rows with
    | Some text => Some (read_setting JsonValue JSON_parse text)
    | None => None
    end.
Proof. exact (settings_fold_get key rows []). Qed.

Lemma last_setting_app (key : string) (rows rows' : list (string * string)) :
  last_setting key (rows ++ rows')
  = match last_setting key rows' with
    | Some text => Some text
    | None => last_setting key rows
    end.
Proof.
  unfold last_setting. rewrite rev_app_distr, find_append.
  destruct (find _ (rev rows')); reflexivity.
Qed.

Lemma last_setting_upsert_same (key value : string)
  (rows : list (string * string)) :
  last_setting key (upsert_setting key value rows) = Some value.
Proof.
  unfold upsert_setting.
  destruct (existsb (fun r => String.eqb (fst r) key) rows) eqn:Ex.
  - induction rows as [|[k v] rows IH] using rev_ind; [discriminate|].
    rewrite map_app, last_setting_app. simpl map.
    rewrite existsb_app in Ex. simpl in Ex.
    unfold last_setting at 1. simpl.
    destruct (String.eqb k key) eqn:E; simpl.
    + now rewrite E.
    + rewrite E. simpl. rewrite orb_false_r in Ex. now apply IH.
  - rewrite last_setting_app. unfold last_setting. simpl.
    now rewrite String.eqb_refl.
Qed.

Lemma last_setting_upsert_other (key key' value : string)
  (rows : list (string * string)) :
  key' <> key ->
  last_setting key' (upsert_setting key value rows) = last_setting key' rows.
Proof.
  intros Hneq. unfold upsert_setting.
  destruct (existsb (fun r => String.eqb (fst r) key) rows).
  - induction rows as [|[k v] rows IH] using rev_ind; [reflexivity|].
    rewrite map_app, !last_setting_app, IH. simpl map.
    unfold last_setting. simpl.
    destruct (String.eqb k key) eqn:E; simpl; [|reflexivity].
    apply String.eqb_eq in E. subst k.
    apply String.eqb_neq in Hneq. rewrite String.eqb_sym in Hneq.
    now rewrite Hneq.
  - rewrite last_setting_app. unfold last_setting at 1. simpl.
    apply String.eqb_neq in Hneq. rewrite String.eqb_sym in Hneq.
    now rewrite Hneq.
Qed.

Lemma upsert_setting_idempotent (key value : string)
  (rows : list (string * string)) :
  upsert_setting key value (upsert_setting key value rows)
  = upsert_setting key value rows.
Proof.
  unfold upsert_setting at 2 3.
  destruct (existsb (fun r => String.eqb (fst r) key) rows) eqn:Ex.
  - unfold upsert_setting.
    replace (existsb _ (map _ rows)) with true.
    + rewrite map_map. apply map_ext. intros [k v]. simpl.
      destruct (String.eqb k key) eqn:E; simpl; now rewrite E.
    + symmetry. rewrite existsb_exists in *.
      destruct Ex as [[k v] [Hin E]]. simpl in E.
      exists (k, value). split; [|exact E].
      apply in_map_iff. exists (k, v). simpl. now rewrite E.
  - unfold upsert_setting. rewrite existsb_app. simpl.
    rewrite String.eqb_refl, orb_true_r, map_app. simpl.
    rewrite String.eqb_refl. f_equal.
    rewrite <- (map_id rows) at 2. apply map_ext_in. intros [k v] Hin.
    simpl. destruct (String.eqb k key) eqn:E; [|reflexivity].
    exfalso. apply not_true_iff_false in Ex. apply Ex.
    apply existsb_exists. exists (k, v). auto.
Qed.

(** On the later copy of the module a setting that was written is the
    setting that is read: after [updateSetting(key, value)], [getSettings]
    gives [key] the reading of [JSON.stringify(value)], the value itself
    when the text parses back to it, and every other key what it had
    before. *)
Theorem SiteTemplate_updateSetting_then_getSettings (d : Database)
  (key : string) (value : JsonValue) :
  exists d' before after,
    SiteTemplate_getSettings JsonValue JSON_parse (Some d)
    = (Ok before, Some d)
    /\ SiteTemplate_updateSetting JsonValue JSON_stringify key value (Some d)
       = (Ok tt, Some d')
    /\ SiteTemplate_getSettings JsonValue JSON_parse (Some d')
       = (Ok after, Some d')
    /\ dict_get key after = Some (read_setting JsonValue JSON_parse (JSON_stringify value))
    /\ (JSON_parse (JSON_stringify value) = Some value ->
        dict_get key after = Some (Parsed JsonValue value))
    /\ forall key', key' <> key ->
                    dict_get key' after = dict_get key' before.
Proof.
  do 3 eexists. split; [reflexivity|]. split; [reflexivity|].
  split; [reflexivity|]. simpl.
  assert (Hkey : dict_get key
                   (settings_object JsonValue JSON_parse
                      (upsert_setting key (JSON_stringify value)
                         (settings d)))
                 = Some (read_setting JsonValue JSON_parse (JSON_stringify value))).
  { now rewrite settings_object_get, last_setting_upsert_same. }
  split; [exact Hkey|]. split.
  - intros Hparse. rewrite Hkey. unfold read_setting. now rewrite Hparse.
  - intros key' Hneq.
    now rewrite !settings_object_get, last_setting_upsert_other.
Qed.

(** Writing the same setting twice leaves the database that writing it
    once leaves. *)
Theorem SiteTemplate_updateSetting_idempotent (w : SiteTemplate.Disk)
  (key : string) (value : JsonValue) :
  (SiteTemplate_updateSetting JsonValue JSON_stringify key value ;;;
   SiteTemplate_updateSetting JsonValue JSON_stringify key value) w
  = SiteTemplate_updateSetting JsonValue JSON_stringify key value w.
Proof.
  destruct w as [d|]; [|reflexivity].
  unfold bind, SiteTemplate_updateSetting, SiteTemplate.withWriteConnection,
    SiteTemplate.with_mode, SiteTemplate.run_insert. simpl.
  unfold insert_setting. simpl.
  now rewrite upsert_setting_idempotent.
Qed.

(** On the module the server imports, the settings route stores nothing:
    every [updateSetting] throws on the read-only connection, so a body with
    at least one entry is answered with the server error, and only the
    empty object is answered with success. *)
Theorem put_settings_read_only (d : Database) (opened : bool)
  (body : list (string * JsonValue)) :
  exists w',
    put_settings JsonValue JSON_stringify body (module_world d opened)
    = (Ok (match body with
           | [] => Success
           | _ :: _ => ServerError "Failed to update settings"
           end), w')
    /\ db w' = d.
Proof.
  destruct body as [|[key value] rest].
  - eexists. split; reflexivity.
  - eexists. unfold put_settings, try_catch, bind. simpl update_each.
    unfold bind, updateSetting.
    rewrite run_insert_module_world. split; reflexivity.
Qed.
End SettingsFacts.

(* ===================================================================== *)
(** * The later copy: blog round trip and the frame of a note write      *)
(* ===================================================================== *)

Lemma select_blog_after_upsert (logicalDate : Date) (c : string)
  (rows : list BlogRow) :
  exists r rest,
    filter (fun r => b_logical_date r =? logicalDate)
      (upsert_blog logicalDate c rows) = r :: rest
    /\ b_content r = Some c.
Proof.
  destruct (filter (fun r => b_logical_date r =? logicalDate)
              (upsert_blog logicalDate c rows)) as [|r rest] eqn:F.
  - exfalso. pose proof (upsert_blog_present logicalDate c rows) as Hin.
    apply in_map_iff in Hin. destruct Hin as [r [Hr Hin]].
    assert (H : In r (filter (fun r => b_logical_date r =? logicalDate)
                        (upsert_blog logicalDate c rows))).
    { apply filter_In. split; [exact Hin|]. now apply Z.eqb_eq. }
    rewrite F in H. contradiction.
  - exists r, rest. split; [reflexivity|].
    assert (H : In r (filter (fun r => b_logical_date r =? logicalDate)
                        (upsert_blog logicalDate c rows)))
      by (rewrite F; now left).
    apply filter_In in H. destruct H as [Hin Hdate].
    apply Z.eqb_eq in Hdate.
    exact (upsert_blog_stored logicalDate c rows r Hin Hdate).
Qed.

(** On the later copy a saved blog is the blog of the day summary, except
    that the empty string, which is stored as it is, reads back as null. *)
Theorem SiteTemplate_saveBlog_then_getDayData (d : Database)
  (logicalDate : Date) (c : string) :
  exists d' data,
    (SiteTemplate.saveBlog logicalDate c ;;;
     SiteTemplate.getDayData logicalDate) (Some d)
    = (Ok data, Some d')
    /\ blog data = (if truthy_string c then Some c else None).
Proof.
  do 2 eexists. split; [reflexivity|]. simpl. unfold select_blog. simpl.
  destruct (select_blog_after_upsert logicalDate c (daily_blog d))
    as [r [rest [Hsel Hc]]].
  rewrite Hsel, Hc. reflexivity.
Qed.

Lemma existsb_filter_nil {A} (p : A -> bool) (l : list A) :
  existsb p l = false <-> filter p l = [].
Proof.
  induction l as [|x l IH]; simpl; [tauto|].
  destruct (p x); simpl; [split; discriminate|exact IH].
Qed.

Lemma upsert_note_other (t t' : Timestamp) (c : string) (logicalDate : Date)
  (rows : list NoteRow) :
  t' <> t ->
  filter (fun r => n_timestamp r =? t') (upsert_note t c logicalDate rows)
  = filter (fun r => n_timestamp r =? t') rows.
Proof.
  intros Hneq. unfold upsert_note.
  destruct (existsb (fun r => n_timestamp r =? t) rows).
  - induction rows as [|r rows IH]; [reflexivity|]. simpl.
    destruct (n_timestamp r =? t) eqn:E; simpl.
    + apply Z.eqb_eq in E. rewrite E.
      replace (t =? t') with false by (symmetry; apply Z.eqb_neq; lia).
      exact IH.
    + destruct (n_timestamp r =? t'); [f_equal|]; exact IH.
  - rewrite filter_app. simpl.
    replace (t =? t') with false by (symmetry; apply Z.eqb_neq; lia).
    apply app_nil_r.
Qed.

Lemma upsert_note_same (t : Timestamp) (c : string) (logicalDate : Date)
  (rows : list NoteRow) :
  filter (fun r => n_timestamp r =? t) (upsert_note t c logicalDate rows)
  = match filter (fun r => n_timestamp r =? t) rows with
    | [] => [ {| n_timestamp := t;
                 n_content := c;
                 n_logical_date := logicalDate |} ]
    | existing => map (set_content c) existing
    end.
Proof.
  unfold upsert_note.
  destruct (existsb (fun r => n_timestamp r =? t) rows) eqn:Ex.
  - assert (Hmap : filter (fun r => n_timestamp r =? t)
                     (map (fun r => if n_timestamp r =? t
                                    then set_content c r else r) rows)
                   = map (set_content c)
                       (filter (fun r => n_timestamp r =? t) rows)).
    { clear Ex. induction rows as [|r rows IH]; [reflexivity|]. simpl.
      destruct (n_timestamp r =? t) eqn:E; simpl; rewrite E, IH;
        reflexivity. }
    rewrite Hmap.
    destruct (filter (fun r => n_timestamp r =? t) rows) eqn:F;
      [|reflexivity].
    apply existsb_filter_nil in F. congruence.
  - rewrite filter_app. apply existsb_filter_nil in Ex. rewrite Ex.
    simpl. now rewrite Z.eqb_refl.
Qed.

Lemma upsert_note_NoDup (t : Timestamp) (c : string) (logicalDate : Date)
  (rows : list NoteRow) :
  NoDup (map n_timestamp rows) ->
  NoDup (map n_timestamp (upsert_note t c logicalDate rows)).
Proof.
  intros Hnd. unfold upsert_note.
  destruct (existsb (fun r => n_timestamp r =? t) rows) eqn:Ex.
  - rewrite map_map.
    replace (map _ rows) with (map n_timestamp rows); [exact Hnd|].
    apply map_ext. intros r. now destruct (n_timestamp r =? t).
  - rewrite map_app. simpl. apply NoDup_app.
    + exact Hnd.
    + repeat constructor. intros [].
    + intros t0 Hin [<-|[]]. apply in_map_iff in Hin.
      destruct Hin as [r [Hr Hin]].
      apply not_true_iff_false in Ex. apply Ex, existsb_exists.
      exists r. split; [exact Hin|]. now apply Z.eqb_eq.
Qed.

(** What a note write on the later copy changes and what it leaves alone:
    only the notes table is touched, and in it only the timestamp written
    to; a note that exists there keeps its logical date and gets the new
    content, otherwise the new note is the only one there; timestamps that
    were unique stay unique. *)
Theorem SiteTemplate_addNote_frame (d : Database) (t : Timestamp)
  (c : string) (logicalDate : Date) :
  exists d',
    SiteTemplate.addNote t c logicalDate (Some d) = (Ok tt, Some d')
    /\ window_events d' = window_events d
    /\ key_events d' = key_events d
    /\ daily_blog d' = daily_blog d
    /\ settings d' = settings d
    /\ (forall t', t' <> t -> notes_at t' d' = notes_at t' d)
    /\ notes_at t d'
       = match notes_at t d with
         | [] => [ {| n_timestamp := t;
                      n_content := c;
                      n_logical_date := logicalDate |} ]
         | existing => map (set_content c) existing
         end
    /\ (NoDup (map n_timestamp (notes d)) ->
        NoDup (map n_timestamp (notes d'))).
Proof.
  eexists. split; [reflexivity|]. simpl. unfold notes_at. simpl.
  repeat split.
  - intros t' Hneq. now apply upsert_note_other.
  - apply upsert_note_same.
  - apply upsert_note_NoDup.
Qed.

(* ===================================================================== *)
(** * Client components                                                  *)
(* ===================================================================== *)

Lemma Qltb_lt (x y : Q) : Qltb x y = true <-> (x < y)%Q.
Proof.
  unfold Qltb. rewrite negb_true_iff, <- not_true_iff_false, Qle_bool_iff.
  split; [apply Qnot_le_lt|apply Qlt_not_le].
Qed.

Lemma Qltb_ge (x y : Q) : Qltb x y = false <-> (y <= x)%Q.
Proof.
  unfold Qltb. rewrite negb_false_iff. apply Qle_bool_iff.
Qed.

Lemma Qfloor_eq (x : Q) (n : Z) :
  (inject_Z n <= x)%Q -> (x < inject_Z (n + 1))%Q -> Qfloor x = n.
Proof.
  intros Hle Hlt.
  pose proof (Qfloor_le x) as H1. pose proof (Qlt_floor x) as H2.
  assert (inject_Z n < inject_Z (Qfloor x + 1))%Q by lra.
  assert (inject_Z (Qfloor x) < inject_Z (n + 1))%Q by lra.
  rewrite <- Zlt_Qlt in *. lia.
Qed.

Lemma Math_round_eq (x : Q) (n : Z) :
  (inject_Z n - (1 # 2) <= x)%Q -> (x < inject_Z n + (1 # 2))%Q ->
  Math_round x = n.
Proof.
  intros Hle Hlt. unfold Math_round. apply Qfloor_eq.
  - lra.
  - rewrite inject_Z_plus. change (inject_Z 1) with 1%Q. lra.
Qed.

(** ** formatDuration *)

(** The label rounds each unit on its own and never carries over: the
    last half second of a minute reads 60s, the last half minute of the
    first hour reads 60m, and the last half minute of any later hour reads
    as that hour and 60m. *)
Theorem formatDuration_sixty :
  (forall s : Q, (59.5 <= s)%Q -> (s < 60)%Q -> formatDuration s = "60s")
  /\ (forall s : Q, (3570 <= s)%Q -> (s < 3600)%Q ->
                    formatDuration s = "60m")
  /\ (forall (h : Z) (s : Q),
         1 <= h ->
         (3600 * inject_Z h + 3570 <= s)%Q ->
         (s < 3600 * inject_Z h + 3600)%Q ->
         formatDuration s = (string_of_Z h ++ "h 60m")%string).
Proof.
  split; [|split].
  - intros s Hlo Hhi. unfold formatDuration.
    replace (Qltb s 60) with true by (symmetry; now apply Qltb_lt).
    rewrite (Math_round_eq s 60); [reflexivity| |];
      change (inject_Z 60) with 60%Q; lra.
  - intros s Hlo Hhi. unfold formatDuration.
    replace (Qltb s 60) with false by (symmetry; apply Qltb_ge; lra).
    replace (Qltb s 3600) with true by (symmetry; now apply Qltb_lt).
    rewrite (Math_round_eq (s / 60) 60); [reflexivity| |];
      change (inject_Z 60) with 60%Q.
    + apply Qle_shift_div_l; [reflexivity|lra].
    + apply Qlt_shift_div_r; [reflexivity|lra].
  - intros h s Hh Hlo Hhi. unfold formatDuration.
    assert (Hpos : (1 <= inject_Z h)%Q).
    { change 1%Q with (inject_Z 1). now rewrite <- Zle_Qle. }
    replace (Qltb s 60) with false by (symmetry; apply Qltb_ge; lra).
    replace (Qltb s 3600) with false by (symmetry; apply Qltb_ge; lra).
    assert (Hhours : Qfloor (s / 3600) = h).
    { apply Qfloor_eq.
      - apply Qle_shift_div_l; [reflexivity|lra].
      - apply Qlt_shift_div_r; [reflexivity|].
        rewrite inject_Z_plus. change (inject_Z 1) with 1%Q. lra. }
    rewrite Hhours.
    rewrite (Math_round_eq ((s - 3600 * inject_Z h) / 60) 60);
      [reflexivity| |]; change (inject_Z 60) with 60%Q.
    + apply Qle_shift_div_l; [reflexivity|lra].
    + apply Qlt_shift_div_r; [reflexivity|lra].
Qed.

Lemma formatDuration_sixty_witness :
  formatDuration 59.7 = "60s"
  /\ formatDuration 3599 = "60m"
  /\ formatDuration 7190 = "1h 60m".
Proof.
  split; [|split].
  - apply (proj1 formatDuration_sixty); [discriminate|reflexivity].
  - apply (proj1 (proj2 formatDuration_sixty)); [discriminate|reflexivity].
  - apply (proj2 (proj2 formatDuration_sixty) 1 7190%Q);
      [lia|discriminate|reflexivity].
Defined.

(** ** HackingStreak *)

Lemma max_keys_fold (l : list Z) (a : Z) :
  a <= fold_left Z.max l a
  /\ forall x, In x l -> x <= fold_left Z.max l a.
Proof.
  revert a. induction l as [|y l IH]; intros a; simpl.
  - split; [lia|intros x []].
  - destruct (IH (Z.max a y)) as [H1 H2]. split; [lia|].
    intros x [<-|Hx]; [lia|now apply H2].
Qed.

Lemma intensity_bounds (k m : Z) :
  0 <= k -> k <= m -> 1 <= m ->
  (0 <= inject_Z k / inject_Z m)%Q /\ (inject_Z k / inject_Z m <= 1)%Q.
Proof.
  intros Hk Hkm Hm.
  assert (Hm' : (0 < inject_Z m)%Q).
  { change 0%Q with (inject_Z 0). rewrite <- Zlt_Qlt. lia. }
  assert (Hk' : (0 <= inject_Z k)%Q).
  { change 0%Q with (inject_Z 0). now rewrite <- Zle_Qle. }
  assert (Hkm' : (inject_Z k <= inject_Z m)%Q) by now rewrite <- Zle_Qle.
  split.
  - apply Qle_shift_div_l; [exact Hm'|lra].
  - apply Qle_shift_div_r; [exact Hm'|lra].
Qed.

Lemma intensity_zero (k m : Z) :
  1 <= m -> (inject_Z k / inject_Z m == 0 <-> k = 0).
Proof.
  intros Hm.
  assert (Hm' : ~ inject_Z m == 0).
  { change 0%Q with (inject_Z 0). rewrite inject_Z_injective. lia. }
  split.
  - intros H.
    assert (Hk : inject_Z k == inject_Z k / inject_Z m * inject_Z m)
      by (field; exact Hm').
    rewrite H, Qmult_0_l in Hk. change 0%Q with (inject_Z 0) in Hk.
    exact (proj1 (inject_Z_injective k 0) Hk).
  - intros ->. unfold Qdiv. change (inject_Z 0) with 0%Q. ring.
Qed.

Lemma getIntensityColor_empty (i : Q) :
  getIntensityColor i = "bg-slate-800/50" <-> i == 0.
Proof.
  unfold getIntensityColor. destruct (Qeq_bool i 0) eqn:E.
  - apply Qeq_bool_eq in E. tauto.
  - split.
    + destruct (Qltb i 0.2), (Qltb i 0.4), (Qltb i 0.6), (Qltb i 0.8);
        discriminate.
    + intros H. apply Qeq_eq_bool in H. congruence.
Qed.

Lemma getIntensityColor_full (i : Q) :
  (0.8 <= i)%Q -> getIntensityColor i = "bg-cyan-400".
Proof.
  intros H. unfold getIntensityColor.
  replace (Qeq_bool i 0) with false.
  - replace (Qltb i 0.2) with false by (symmetry; apply Qltb_ge; lra).
    replace (Qltb i 0.4) with false by (symmetry; apply Qltb_ge; lra).
    replace (Qltb i 0.6) with false by (symmetry; apply Qltb_ge; lra).
    replace (Qltb i 0.8) with false by (symmetry; apply Qltb_ge; lra).
    reflexivity.
  - symmetry. apply not_true_iff_false. intros E.
    apply Qeq_bool_eq in E. lra.
Qed.

(** The streak shows the days in the reverse of the order it is given
    (oldest first for an overview, which is newest first).  When no day has
    a negative keystroke total, every intensity lies between 0 and 1, the
    scale is at least 1, a cell has the empty colour exactly when its day
    has no keystrokes, and a day that reaches the scale has the brightest
    colour. *)
Theorem HackingStreak_cells (days : list DailySummary) :
  (forall day, In day days -> 0 <= total_keys day) ->
  map cell_date (fst (HackingStreak days)) = rev (map logical_date days)
  /\ 1 <= snd (HackingStreak days)
  /\ forall cell, In cell (fst (HackingStreak days)) ->
       keys cell <= snd (HackingStreak days)
       /\ (0 <= intensity cell)%Q /\ (intensity cell <= 1)%Q
       /\ (getIntensityColor (intensity cell) = "bg-slate-800/50"
           <-> keys cell = 0)
       /\ (keys cell = snd (HackingStreak days) ->
           getIntensityColor (intensity cell) = "bg-cyan-400").
Proof.
  intros Hnonneg. unfold HackingStreak. simpl.
  destruct (max_keys_fold (map total_keys (rev days)) 1) as [Hone Hmax].
  fold (max_keys (rev days)) in Hone, Hmax.
  split; [now rewrite map_map, map_rev|]. split; [exact Hone|].
  intros cell Hin. apply in_map_iff in Hin. destruct Hin as [day [<- Hin]].
  simpl.
  assert (Hle : total_keys day <= max_keys (rev days))
    by (apply Hmax; now apply in_map).
  assert (Hk : 0 <= total_keys day) by (apply Hnonneg; now apply in_rev).
  destruct (intensity_bounds _ _ Hk Hle Hone) as [Hlo Hhi].
  split; [exact Hle|]. split; [exact Hlo|]. split; [exact Hhi|]. split.
  - rewrite getIntensityColor_empty. now apply intensity_zero.
  - intros E. apply getIntensityColor_full. rewrite E.
    assert (Hm' : ~ inject_Z (max_keys (rev days)) == 0).
    { change 0%Q with (inject_Z 0). rewrite inject_Z_injective. lia. }
    assert (Hunit : inject_Z (max_keys (rev days))
                    / inject_Z (max_keys (rev days)) == 1)
      by (field; exact Hm').
    rewrite Hunit. discriminate.
Qed.

Lemma HackingStreak_cells_witness :
  map cell_date
    (fst (HackingStreak
            [ {| logical_date := 12; total_keys := 40; unique_apps := 2 |};
              {| logical_date := 10; total_keys := 0; unique_apps := 1 |} ]))
  = [10; 12].
Proof.
  apply (HackingStreak_cells
           [ {| logical_date := 12; total_keys := 40; unique_apps := 2 |};
             {| logical_date := 10; total_keys := 0; unique_apps := 1 |} ]).
  intros day [<-|[<-|[]]]; simpl; lia.
Defined.

(** ** NotesPanel against the note route *)

(** A note whose text is blank sends nothing and changes nothing.  Any
    other note is appended to the panel's list and the input is cleared
    whatever the server answered; against the module the server imports
    the answer is the server error and nothing is stored, so the panel
    lists a note that the next day summary will not hold. *)
Theorem handleAddNote_lists_unsaved_note (trim : string -> string)
  (now : Timestamp) (day : Date) (st : NotesPanelState) :
  (truthy_string (trim (newNote st)) = false ->
   forall w, handleAddNote trim now (Some day) st w = (Ok st, w))
  /\ (truthy_string (trim (newNote st)) = true ->
      forall (d : Database) (opened : bool),
        handleAddNote trim now (Some day) st (module_world d opened)
        = (Ok {| newNote := EmptyString;
                 adding := false;
                 localNotes :=
                   localNotes st
                   ++ [ {| note_timestamp := now;
                           content := trim (newNote st) |} ] |},
           module_world d true)
        /\ post_note
             (Body {| note_timestamp_field := Some now;
                      note_content_field := Some (trim (newNote st));
                      note_logical_date_field := Some day |})
             (module_world d opened)
           = (Ok (ServerError "Failed to add note"), module_world d true)
        /\ exists data,
             getDayData day (module_world d true)
             = (Ok data, module_world d true)
             /\ dd_notes data = map to_Note (select_notes day d)).
Proof.
  split.
  - intros Hblank w. unfold handleAddNote. now rewrite Hblank.
  - intros Htext d opened.
    assert (Hpost :
              post_note
                (Body {| note_timestamp_field := Some now;
                         note_content_field := Some (trim (newNote st));
                         note_logical_date_field := Some day |})
                (module_world d opened)
              = (Ok (ServerError "Failed to add note"), module_world d true)).
    { unfold post_note, note_body_fields, try_catch, bind. simpl.
      rewrite Htext, addNote_throws. reflexivity. }
    split; [|split; [exact Hpost|apply getDayData_notes]].
    unfold handleAddNote. rewrite Htext. unfold bind. now rewrite Hpost.
Qed.

Lemma handleAddNote_lists_unsaved_note_witness :
  handleAddNote (fun s => s) (clock 12 0) (Some 0)
    {| newNote := "lunch"; adding := false; localNotes := [] |}
    (module_world empty_database false)
  = (Ok {| newNote := EmptyString;
           adding := false;
           localNotes := [ {| note_timestamp := clock 12 0;
                              content := "lunch" |} ] |},
     module_world empty_database true).
Proof.
  apply (proj2 (handleAddNote_lists_unsaved_note (fun s => s) (clock 12 0) 0
                  {| newNote := "lunch"; adding := false;
                     localNotes := [] |}) eq_refl empty_database false).
Defined.

(** ** CategoryPieChart *)

Lemma reduce_durations_fold (entries : list (string * Q)) (a : Q) :
  fold_left (fun sum en => (sum + snd en)%Q) entries a
  == a + Qsum (map snd entries).
Proof.
  revert a. induction entries as [|en entries IH]; intros a; simpl; [ring|].
  rewrite IH. ring.
Qed.

Lemma reduce_durations_sum (entries : list (string * Q)) :
  reduce_durations entries == Qsum (map snd entries).
Proof. unfold reduce_durations. rewrite reduce_durations_fold. ring. Qed.

(** Sum of the entries of a dictionary outside the lock screen. *)
Lemma dict_set_active_sum (k : string) (v : Q) (acc : Dict Q) :
  Qsum (map snd (filter (fun en => negb (String.eqb (fst en) LOCKEDSCREEN))
                   (dict_set k v acc)))
  == Qsum (map snd
             (filter (fun en => negb (String.eqb (fst en) LOCKEDSCREEN)) acc))
     + (if String.eqb k LOCKEDSCREEN
        then 0 else v - or_zero (dict_get k acc)).
Proof.
  induction acc as [|[a b] acc IH]; simpl.
  - destruct (String.eqb k LOCKEDSCREEN); simpl; ring.
  - destruct (String.eqb a k) eqn:E; simpl.
    + apply String.eqb_eq in E. subst a.
      destruct (String.eqb k LOCKEDSCREEN); simpl; [ring|].
      rewrite (or_zero_Some b). ring.
    + destruct (String.eqb a LOCKEDSCREEN); simpl; rewrite IH; ring.
Qed.

Lemma durations_fold_active (events : list WindowEvent)
  (indices : list nat) (acc : Dict Q) :
  Qsum (map snd (filter (fun en => negb (String.eqb (fst en) LOCKEDSCREEN))
                   (fold_left (loop_body events) indices acc)))
  == Qsum (map snd
             (filter (fun en => negb (String.eqb (fst en) LOCKEDSCREEN)) acc))
     + Qsum (map (fun i =>
                    match nth_error events i with
                    | Some e =>
                        if String.eqb (app_name e) LOCKEDSCREEN
                        then 0%Q else cappedDuration events i e
                    | None => 0%Q
                    end) indices).
Proof.
  revert acc. induction indices as [|i indices IH]; intros acc; simpl.
  - ring.
  - rewrite IH. unfold loop_body at 1.
    destruct (nth_error events i) as [e|]; [|ring].
    rewrite dict_set_active_sum.
    destruct (String.eqb (app_name e) LOCKEDSCREEN); ring.
Qed.

Lemma durations_active_total (events : list WindowEvent) :
  Qsum (map snd (filter (fun en => negb (String.eqb (fst en) LOCKEDSCREEN))
                   (durations events)))
  == active_total events.
Proof.
  unfold durations, active_total. rewrite durations_fold_active. simpl.
  rewrite Qplus_0_l. apply Qsum_map_ext. intros i.
  pose proof (loop_share_spec events LOCKEDSCREEN i) as H.
  unfold loop_share, spec_share in H.
  destruct (nth_error events i) as [e|] eqn:Ei; [|reflexivity].
  destruct (String.eqb (app_name e) LOCKEDSCREEN); [reflexivity|].
  pose proof (loop_share_spec events (app_name e) i) as H'.
  unfold loop_share, spec_share in H'.
  rewrite Ei, String.eqb_refl in H'. exact H'.
Qed.

Lemma Sorted_nth_error {A} (R : A -> A -> Prop) (l : list A) (i : nat)
  (x y : A) :
  Sorted R l -> nth_error l i = Some x -> nth_error l (S i) = Some y ->
  R x y.
Proof.
  intros Hs. revert i. induction Hs as [|a l Hs IH Hhd]; intros i Hx Hy.
  - destruct i; discriminate.
  - destruct i as [|i].
    + simpl in Hx. injection Hx as ->.
      destruct Hhd as [|b l' Hab]; [discriminate|].
      simpl in Hy. now injection Hy as ->.
    + simpl in Hx, Hy. now apply (IH i).
Qed.

Lemma cappedDuration_nonneg (events : list WindowEvent) (i : nat)
  (e : WindowEvent) :
  Sorted (fun a b => timestamp a <= timestamp b) events ->
  nth_error events i = Some e ->
  (0 <= cappedDuration events i e)%Q.
Proof.
  intros Hs Hi. unfold cappedDuration, durationSecs, getTime.
  rewrite Nat.add_1_r. apply Q.min_glb; [|discriminate].
  destruct (nth_error events (S i)) as [e'|] eqn:Hn.
  - apply EPOCH_nonneg.
    pose proof (Sorted_nth_error _ _ _ _ _ Hs Hi Hn). simpl in *. lia.
  - rewrite Z.sub_diag. discriminate.
Qed.

Lemma dict_get_Some_In {V} (k : string) (v : V) (o : Dict V) :
  dict_get k o = Some v -> exists k', In (k', v) o.
Proof.
  induction o as [|[a b] o IH]; simpl; [discriminate|].
  destruct (String.eqb a k).
  - intros H. injection H as ->. exists a. now left.
  - intros H. destruct (IH H) as [k' Hin]. exists k'. now right.
Qed.

Lemma dict_set_In {V} (k : string) (v : V) (o : Dict V) (en : string * V) :
  In en (dict_set k v o) -> In en o \/ snd en = v.
Proof.
  induction o as [|[a b] o IH]; simpl.
  - intros [<-|[]]. now right.
  - destruct (String.eqb a k); simpl.
    + intros [<-|H]; [now right|left; now right].
    + intros [<-|H]; [left; now left|].
      destruct (IH H); [left; now right|now right].
Qed.

Lemma or_zero_nonneg (o : Dict Q) (k : string) :
  (forall en, In en o -> (0 <= snd en)%Q) ->
  (0 <= or_zero (dict_get k o))%Q.
Proof.
  intros H. unfold or_zero.
  destruct (dict_get k o) as [q|] eqn:G; [|discriminate].
  destruct (Qeq_bool q 0); [discriminate|].
  destruct (dict_get_Some_In _ _ _ G) as [k' Hin]. apply (H _ Hin).
Qed.

(** On events in timestamp order no application has a negative total. *)
Lemma durations_nonneg (events : list WindowEvent) :
  Sorted (fun a b => timestamp a <= timestamp b) events ->
  forall en, In en (durations events) -> (0 <= snd en)%Q.
Proof.
  intros Hs. unfold durations.
  assert (Hfold : forall indices acc,
             (forall en, In en acc -> (0 <= snd en)%Q) ->
             forall en, In en (fold_left (loop_body events) indices acc) ->
                        (0 <= snd en)%Q).
  { induction indices as [|i indices IH]; intros acc Hacc; [exact Hacc|].
    simpl. apply IH. unfold loop_body.
    destruct (nth_error events i) as [e|] eqn:Ei; [|exact Hacc].
    intros en Hin. apply dict_set_In in Hin. destruct Hin as [Hin | ->].
    - now apply Hacc.
    - pose proof (or_zero_nonneg acc (app_name e) Hacc).
      pose proof (cappedDuration_nonneg events i e Hs Ei). lra. }
  apply Hfold. intros en [].
Qed.

(** The pie of ordered events: at most six slices, none negative, and a
    total that is both the sum of the slices and the capped time of the
    day outside the lock screen, so that folding the smaller applications
    into Other loses nothing. *)
Lemma CategoryPieChart_ordered (events : list WindowEvent) :
  Sorted (fun a b => timestamp a <= timestamp b) events ->
  (List.length (pieData (CategoryPieChart events)) <= 6)%nat
  /\ (forall slice, In slice (pieData (CategoryPieChart events)) ->
                    (0 <= value slice)%Q)
  /\ totalSeconds (CategoryPieChart events)
     == Qsum (map value (pieData (CategoryPieChart events)))
  /\ totalSeconds (CategoryPieChart events) == active_total events.
Proof.
  intros Hs. unfold CategoryPieChart.
  destruct events as [|e0 events'];
    [simpl; repeat split; try reflexivity; [lia|tauto]|].
  set (events := e0 :: events') in *.
  set (sorted := sort by_duration _).
  assert (Hvalues : forall en, In en sorted -> (0 <= snd en)%Q).
  { intros en Hin. apply sort_in, filter_In in Hin.
    apply (durations_nonneg events Hs). tauto. }
  assert (Hall : Qsum (map snd sorted) == active_total events).
  { unfold sorted.
    rewrite <- (Qsum_perm _ _ (Permutation_map snd (sort_perm by_duration _))).
    apply durations_active_total. }
  assert (Hsplit : Qsum (map snd sorted)
                   == Qsum (map snd (firstn 5 sorted))
                      + Qsum (map snd (skipn 5 sorted))).
  { rewrite <- Qsum_app, <- map_app, firstn_skipn. reflexivity. }
  assert (Hother : (0 <= reduce_durations (skipn 5 sorted))%Q).
  { rewrite reduce_durations_sum. apply Qsum_nonneg.
    intros x Hx. apply in_map_iff in Hx. destruct Hx as [en [<- Hen]].
    apply Hvalues. rewrite <- (firstn_skipn 5 sorted).
    apply in_or_app. now right. }
  assert (Htop : forall en, In en (firstn 5 sorted) -> (0 <= snd en)%Q).
  { intros en Hen. apply Hvalues. rewrite <- (firstn_skipn 5 sorted).
    apply in_or_app. now left. }
  pose proof (firstn_le_length 5 sorted) as Hlen.
  pose proof (reduce_durations_sum (skipn 5 sorted)) as Hrest.
  clearbody sorted.
  destruct (Qltb 0 (reduce_durations (skipn 5 sorted))) eqn:Epos;
    cbn [pieData totalSeconds].
  - split; [rewrite length_map, length_app; cbn [List.length]; lia|].
    split.
    { intros slice Hin. apply in_map_iff in Hin.
      destruct Hin as [en [<- Hen]]. simpl.
      apply in_app_or in Hen. destruct Hen as [Hen|[<-|[]]];
        [now apply Htop|exact Hother]. }
    split.
    + rewrite reduce_durations_sum, map_map. reflexivity.
    + rewrite reduce_durations_sum, map_app, Qsum_app. cbn [map snd].
      assert (Hone : forall x, Qsum [x] == x) by (intros x; simpl; ring).
      rewrite Hone, <- Hall, Hsplit, Hrest. ring.
  - split; [rewrite length_map; lia|].
    split.
    { intros slice Hin. apply in_map_iff in Hin.
      destruct Hin as [en [<- Hen]]. simpl. now apply Htop. }
    split.
    + rewrite reduce_durations_sum, map_map. reflexivity.
    + apply Qltb_ge in Epos.
      rewrite reduce_durations_sum, <- Hall, Hsplit.
      assert (Qsum (map snd (skipn 5 sorted)) == 0) by lra.
      lra.
Qed.

Lemma select_window_events_sorted (day : Date) (d : Database) :
  Sorted (fun a b => timestamp a <= timestamp b)
    (map to_WindowEvent (select_window_events day d)).
Proof.
  unfold select_window_events.
  pose proof (sort_sorted (by_timestamp w_timestamp)
                (fun x y => by_timestamp_total w_timestamp x y)
                (filter (fun r => w_logical_date r =? day) (window_events d)))
    as Hs.
  induction Hs as [|r rows Hs IH Hhd]; simpl; constructor; [exact IH|].
  destruct Hhd as [|r' rows' Hle]; simpl; constructor.
  simpl. unfold by_timestamp in Hle. now apply Z.leb_le.
Qed.

(** The pie of a day summary: at most six slices, none negative, whose
    total is the sum of the slices and is the capped time of the day outside
    the lock screen. *)
Theorem CategoryPieChart_total (w : World) (day : Date) :
  exists data,
    fst (getDayData day w) = Ok data
    /\ (List.length (pieData (CategoryPieChart (dd_window_events data))) <= 6)%nat
    /\ (forall slice,
          In slice (pieData (CategoryPieChart (dd_window_events data))) ->
          (0 <= value slice)%Q)
    /\ totalSeconds (CategoryPieChart (dd_window_events data))
       == Qsum (map value
                  (pieData (CategoryPieChart (dd_window_events data))))
    /\ totalSeconds (CategoryPieChart (dd_window_events data))
       == active_total (dd_window_events data).
Proof.
  destruct (getConnection_ok w) as [c Hc].
  eexists. split.
  { unfold getDayData, bind, run_select, ret. rewrite Hc. reflexivity. }
  simpl dd_window_events.
  apply CategoryPieChart_ordered, select_window_events_sorted.
Qed.

(** ** ActivityTimeline *)

Section CountByKey.
Context {A K : Type}.
Variable eqb : K -> K -> bool.
Hypothesis eqb_spec : forall x y, eqb x y = true <-> x = y.
Variable key : A -> K.

Lemma tally_absent (k : K) (ks : list K) :
  ~ In k ks ->
  list_sum (map (fun a => if eqb k a then 1%nat else 0%nat) ks) = 0%nat.
Proof.
  induction ks as [|a ks IH]; intros Hnot; [reflexivity|]. simpl.
  destruct (eqb k a) eqn:E.
  - apply eqb_spec in E. exfalso. apply Hnot. now left.
  - apply IH. intros H. apply Hnot. now right.
Qed.

Lemma tally_once (k : K) (ks : list K) :
  NoDup ks -> In k ks ->
  list_sum (map (fun a => if eqb k a then 1%nat else 0%nat) ks) = 1%nat.
Proof.
  induction 1 as [|a ks Hnotin Hnd IH]; intros Hin; [contradiction|]. simpl.
  destruct (eqb k a) eqn:E.
  - apply eqb_spec in E. subst a. now rewrite tally_absent.
  - destruct Hin as [->|Hin]; [|now rewrite IH].
    assert (eqb k k = true) by now apply eqb_spec. congruence.
Qed.

Lemma count_by_key (ks : list K) (l : list A) :
  NoDup ks -> (forall x, In x l -> In (key x) ks) ->
  list_sum (map (fun a => List.length (filter (fun x => eqb (key x) a) l)) ks)
  = List.length l.
Proof.
  intros Hnd. induction l as [|x l IH]; intros Hin.
  - clear. induction ks as [|a ks IHks]; simpl; [reflexivity|exact IHks].
  - assert (Hsplit : forall ks',
               list_sum
                 (map (fun a => List.length
                                  (filter (fun y => eqb (key y) a) (x :: l)))
                    ks')
               = (list_sum
                    (map (fun a => if eqb (key x) a then 1%nat else 0%nat)
                       ks')
                  + list_sum
                      (map (fun a => List.length
                                       (filter (fun y => eqb (key y) a) l))
                         ks'))%nat).
    { induction ks' as [|a ks' IHks]; simpl in *; [reflexivity|].
      rewrite IHks. destruct (eqb (key x) a); simpl; lia. }
    rewrite Hsplit, IH by (intros y Hy; apply Hin; now right).
    rewrite (tally_once (key x) ks Hnd) by (apply Hin; now left).
    reflexivity.
Qed.
End CountByKey.

Lemma list_sum_filter {A} (f : A -> nat) (p : A -> bool) (l : list A) :
  (forall x, In x l -> p x = false -> f x = 0%nat) ->
  list_sum (map f (filter p l)) = list_sum (map f l).
Proof.
  induction l as [|x l IH]; intros H; [reflexivity|]. simpl.
  destruct (p x) eqn:E; simpl.
  - rewrite IH; [reflexivity|]. intros y Hy. apply H. now right.
  - rewrite (H x) by (auto; now left). simpl.
    apply IH. intros y Hy. apply H. now right.
Qed.

Lemma hour_get_set (h h' : Z) (data : HourData) (o : list (Z * HourData)) :
  hour_get h (hour_set h' data o)
  = if h' =? h
    then match hour_get h o with
         | Some _ => Some data
         | None => None
         end
    else hour_get h o.
Proof.
  induction o as [|[a b] o IH]; simpl.
  - now destruct (h' =? h).
  - destruct (a =? h') eqn:Eah'; simpl.
    + apply Z.eqb_eq in Eah'. subst a.
      destruct (h' =? h); reflexivity.
    + rewrite IH. destruct (a =? h) eqn:Eah; [|reflexivity].
      apply Z.eqb_eq in Eah. subst a. rewrite Z.eqb_sym in Eah'.
      now rewrite Eah'.
Qed.

Lemma orderedHours_range (h : Z) : In h orderedHours <-> 0 <= h <= 23.
Proof.
  unfold orderedHours, day_hours, night_hours. simpl. split.
  - intros H. repeat (destruct H as [<-|H]; [lia|]). contradiction.
  - intros H.
    assert (E : h = 7 \/ h = 8 \/ h = 9 \/ h = 10 \/ h = 11 \/ h = 12
                \/ h = 13 \/ h = 14 \/ h = 15 \/ h = 16 \/ h = 17 \/ h = 18
                \/ h = 19 \/ h = 20 \/ h = 21 \/ h = 22 \/ h = 23 \/ h = 0
                \/ h = 1 \/ h = 2 \/ h = 3 \/ h = 4 \/ h = 5 \/ h = 6) by lia.
    intuition (subst; auto 30).
Qed.

Lemma hour_get_const (ks : list Z) (data : HourData) (h : Z) :
  hour_get h (map (fun k => (k, data)) ks)
  = if existsb (fun k => k =? h) ks then Some data else None.
Proof.
  induction ks as [|k ks IH]; simpl; [reflexivity|].
  destruct (k =? h); [reflexivity|exact IH].
Qed.

Lemma hour_get_initial (h : Z) :
  hour_get h initial_hours
  = if (0 <=? h) && (h <=? 23)
    then Some {| apps := []; total := 0 |}
    else None.
Proof.
  unfold initial_hours. rewrite hour_get_const.
  destruct (existsb (fun k => k =? h) orderedHours) eqn:Ex;
    destruct ((0 <=? h) && (h <=? 23)) eqn:E; try reflexivity; exfalso.
  - apply existsb_exists in Ex. destruct Ex as [k [Hin Hk]].
    apply Z.eqb_eq in Hk. subst k. apply orderedHours_range in Hin.
    apply andb_false_iff in E. rewrite !Z.leb_gt in E. lia.
  - apply andb_true_iff in E. rewrite !Z.leb_le in E.
    apply orderedHours_range in E.
    apply not_true_iff_false in Ex. apply Ex, existsb_exists.
    exists h. split; [exact E|apply Z.eqb_refl].
Qed.

Lemma orderedHours_NoDup : NoDup orderedHours.
Proof.
  unfold orderedHours, day_hours, night_hours. simpl.
  repeat (constructor; [simpl; intuition discriminate|]). constructor.
Qed.

Lemma filter_all {A} (p : A -> bool) (l : list A) :
  (forall x, In x l -> p x = true) -> filter p l = l.
Proof.
  induction l as [|x l IH]; intros H; [reflexivity|]. simpl.
  rewrite (H x) by now left. f_equal. apply IH. intros y Hy. apply H.
  now right.
Qed.

Lemma day_hours_range (h : Z) : In h day_hours -> 7 <= h <= 23.
Proof.
  unfold day_hours. simpl. intros H.
  repeat (destruct H as [<-|H]; [lia|]). contradiction.
Qed.

Lemma night_hours_range (h : Z) : In h night_hours -> 0 <= h <= 6.
Proof.
  unfold night_hours. simpl. intros H.
  repeat (destruct H as [<-|H]; [lia|]). contradiction.
Qed.

Lemma sort_head_max (l : list (string * nat)) (app : string) (c : nat)
  (rest : list (string * nat)) :
  sort by_count l = (app, c) :: rest ->
  forall en, In en l -> (snd en <= c)%nat.
Proof.
  intros Hsort en Hin.
  assert (Hs : StronglySorted (fun a b => by_count a b = true)
                 (sort by_count l)).
  { apply sort_strongly_sorted; unfold by_count; intros x y.
    - rewrite Nat.leb_gt, Nat.leb_le. lia.
    - intros z. rewrite !Nat.leb_le. lia. }
  apply (sort_in by_count) in Hin. rewrite Hsort in Hs, Hin.
  inversion Hs as [|? ? _ Hall]; subst.
  destruct Hin as [<-|Hin]; [simpl; lia|].
  rewrite Forall_forall in Hall. specialize (Hall en Hin).
  unfold by_count in Hall. simpl in Hall. now apply Nat.leb_le.
Qed.

Section TimelineFacts.
Variable getHours : Timestamp -> Z.

Lemma count_event_get (h : Z) (o : list (Z * HourData)) (e : WindowEvent) :
  hour_get h (count_event getHours o e)
  = match hour_get h o with
    | None => None
    | Some data =>
        if getHours (timestamp e) =? h
        then Some {| apps := dict_set (app_name e)
                               (count_or_zero
                                  (dict_get (app_name e) (apps data)) + 1)%nat
                               (apps data);
                     total := (total data + 1)%nat |}
        else Some data
    end.
Proof.
  unfold count_event.
  destruct (hour_get (getHours (timestamp e)) o) as [data0|] eqn:G0.
  - rewrite hour_get_set.
    destruct (getHours (timestamp e) =? h) eqn:E.
    + apply Z.eqb_eq in E. rewrite <- E, G0. reflexivity.
    + now destruct (hour_get h o).
  - destruct (getHours (timestamp e) =? h) eqn:E.
    + apply Z.eqb_eq in E. rewrite <- E, G0. reflexivity.
    + now destruct (hour_get h o).
Qed.

(** What the loop leaves in an hour that [hourlyData] holds. *)
Lemma timeline_fold (events : list WindowEvent) :
  forall (o : list (Z * HourData)) (h : Z) (data : HourData),
    hour_get h o = Some data ->
    NoDup (map fst (apps data)) ->
    (apps data = [] <-> total data = 0%nat) ->
    exists data',
      hour_get h (fold_left (count_event getHours) events o) = Some data'
      /\ total data'
         = (total data + List.length (events_at getHours h events))%nat
      /\ (forall app,
            count_or_zero (dict_get app (apps data'))
            = (count_or_zero (dict_get app (apps data))
               + List.length (events_of getHours h app events))%nat)
      /\ NoDup (map fst (apps data'))
      /\ (apps data' = [] <-> total data' = 0%nat).
Proof.
  induction events as [|e events IH]; intros o h data Hget Hnd Hempty.
  - exists data. simpl. repeat split; auto; try lia; apply Hempty.
  - simpl fold_left.
    pose proof (count_event_get h o e) as Hstep. rewrite Hget in Hstep.
    unfold events_of, events_at in *. simpl filter.
    destruct (getHours (timestamp e) =? h) eqn:E.
    + destruct (IH _ _ _ Hstep) as [data' [H1 [H2 [H3 [H4 H5]]]]].
      * simpl. now apply dict_set_NoDup.
      * simpl. split; [|lia]. now destruct (apps data) as [|[a b] l];
          simpl; [|destruct (String.eqb a (app_name e))].
      * exists data'. split; [exact H1|]. simpl in H2, H3.
        split; [simpl; lia|]. split; [|split; assumption].
        intros app. rewrite H3, dict_get_set. simpl filter.
        destruct (String.eqb (app_name e) app) eqn:Ea; simpl.
        -- apply String.eqb_eq in Ea. subst app. lia.
        -- lia.
    + destruct (IH _ _ _ Hstep Hnd Hempty) as [data' [H1 [H2 [H3 [H4 H5]]]]].
      exists data'. split; [exact H1|]. split; [exact H2|].
      split; [exact H3|split; assumption].
Qed.

Lemma timeline_row_spec (events : list WindowEvent) (h : Z) :
  0 <= h <= 23 ->
  let row := timeline_row
               (fold_left (count_event getHours) events initial_hours) h in
  hour row = h
  /\ hourLabel row = formatHour h
  /\ events_in_hour row = List.length (events_at getHours h events)
  /\ (topApp row = None <-> events_in_hour row = 0%nat)
  /\ forall app, topApp row = Some app ->
       forall app',
         (List.length (events_of getHours h app' events)
          <= List.length (events_of getHours h app events))%nat.
Proof.
  intros Hrange.
  assert (Hinit : hour_get h initial_hours
                  = Some {| apps := []; total := 0 |}).
  { rewrite hour_get_initial.
    replace ((0 <=? h) && (h <=? 23)) with true; [reflexivity|].
    symmetry. apply andb_true_iff. rewrite !Z.leb_le. lia. }
  destruct (timeline_fold events _ _ _ Hinit) as [data [H1 [H2 [H3 [H4 H5]]]]].
  { constructor. }
  { simpl. tauto. }
  simpl in H2, H3. unfold timeline_row. rewrite H1. simpl.
  split; [reflexivity|]. split; [reflexivity|]. split; [exact H2|].
  destruct (sort by_count (apps data)) as [|[app c] rest] eqn:Hsort.
  - assert (Hnil : apps data = []).
    { pose proof (Permutation_length (sort_perm by_count (apps data))) as Hl.
      rewrite Hsort in Hl. now destruct (apps data). }
    split; [split; [intros _; now apply H5|reflexivity]|].
    intros app Habs. discriminate Habs.
  - assert (Hin : In (app, c) (apps data)).
    { apply (sort_in by_count). rewrite Hsort. now left. }
    split.
    + split; [discriminate|]. intros Hzero. apply H5 in Hzero.
      rewrite Hzero in Hin. contradiction.
    + intros app0 E app'. injection E as <-.
      rewrite <- !H3, (dict_get_In _ _ _ H4 Hin). simpl.
      destruct (dict_get app' (apps data)) as [n|] eqn:G; simpl; [|lia].
      destruct (dict_get_Some_In _ _ _ G) as [k Hk].
      exact (sort_head_max _ _ _ _ Hsort (k, n) Hk).
Qed.

(** The timeline counts every event once, in the row of its hour: each
    row shows the number of events of the hour and, as top application, one
    with the most events in the hour; the hours 7 to 23 are always shown and
    in that order, followed by those of the hours 0 to 6 that have events;
    so the rows add up to the number of events. *)
Theorem ActivityTimeline_counts (events : list WindowEvent) :
  (forall row, In row (ActivityTimeline getHours events) ->
     hourLabel row = formatHour (hour row)
     /\ events_in_hour row
        = List.length (events_at getHours (hour row) events)
     /\ (topApp row = None <-> events_in_hour row = 0%nat)
     /\ forall app, topApp row = Some app ->
          forall app',
            (List.length (events_of getHours (hour row) app' events)
             <= List.length (events_of getHours (hour row) app events))%nat)
  /\ (events <> [] ->
      map hour (ActivityTimeline getHours events)
      = day_hours
        ++ filter (fun h =>
                     (0 <? List.length (events_at getHours h events))%nat)
                  night_hours)
  /\ ((forall e, In e events -> 0 <= getHours (timestamp e) <= 23) ->
      list_sum (map events_in_hour (ActivityTimeline getHours events))
      = List.length events).
Proof.
  destruct events as [|e0 events'].
  { split; [intros row []|]. split; [now intros H|reflexivity]. }
  change (ActivityTimeline getHours (e0 :: events'))
    with (filter (fun d => (0 <? events_in_hour d)%nat
                           || ((7 <=? hour d) && (hour d <=? 23)))
            (map (timeline_row
                    (fold_left (count_event getHours) (e0 :: events')
                       initial_hours)) orderedHours)).
  set (events := e0 :: events').
  set (o := fold_left (count_event getHours) events initial_hours).
  assert (Hrow : forall h, In h orderedHours ->
             hour (timeline_row o h) = h
             /\ hourLabel (timeline_row o h) = formatHour h
             /\ events_in_hour (timeline_row o h)
                = List.length (events_at getHours h events)
             /\ (topApp (timeline_row o h) = None
                 <-> events_in_hour (timeline_row o h) = 0%nat)
             /\ forall app, topApp (timeline_row o h) = Some app ->
                  forall app',
                    (List.length (events_of getHours h app' events)
                     <= List.length (events_of getHours h app events))%nat).
  { intros h Hin. apply orderedHours_range in Hin.
    exact (timeline_row_spec events h Hin). }
  split; [|split].
  - intros row Hin. apply filter_In in Hin. destruct Hin as [Hin _].
    apply in_map_iff in Hin. destruct Hin as [h [<- Hh]].
    destruct (Hrow h Hh) as [H0 [H1 [H2 [H3 H4]]]].
    rewrite H0. auto.
  - intros _.
    assert (Hmap : forall hs, (forall h, In h hs -> In h orderedHours) ->
               map hour
                 (filter (fun d => (0 <? events_in_hour d)%nat
                                   || ((7 <=? hour d) && (hour d <=? 23)))
                    (map (timeline_row o) hs))
               = filter (fun h =>
                           (0 <? List.length (events_at getHours h events))%nat
                           || ((7 <=? h) && (h <=? 23))) hs).
    { induction hs as [|h hs IH]; intros Hin; [reflexivity|].
      cbn [map filter].
      destruct (Hrow h (Hin h (or_introl eq_refl))) as [H0 [_ [H2 _]]].
      rewrite H0, H2.
      destruct ((0 <? List.length (events_at getHours h events))%nat
                || ((7 <=? h) && (h <=? 23))); cbn [map];
        rewrite IH by (intros h' Hh'; apply Hin; now right);
        [now rewrite H0|reflexivity]. }
    rewrite Hmap by auto. unfold orderedHours. rewrite filter_app. f_equal.
    + apply filter_all. intros h Hin. apply day_hours_range in Hin.
      apply orb_true_iff. right. apply andb_true_iff.
      rewrite !Z.leb_le. lia.
    + apply filter_ext_in. intros h Hin. apply night_hours_range in Hin.
      replace (7 <=? h) with false by (symmetry; apply Z.leb_gt; lia).
      simpl. apply orb_false_r.
  - intros Hvalid.
    rewrite list_sum_filter.
    + rewrite map_map.
      rewrite <- (count_by_key Z.eqb Zeqb_spec
                    (fun e => getHours (timestamp e)) orderedHours events
                    orderedHours_NoDup).
      * f_equal. apply map_ext_in. intros h Hin.
        now destruct (Hrow h Hin) as [_ [_ [H2 _]]].
      * intros e Hin. apply orderedHours_range. now apply Hvalid.
    + intros row _ Hdrop. apply orb_false_iff in Hdrop.
      destruct Hdrop as [Hzero _]. apply Nat.ltb_ge in Hzero. lia.
Qed.
End TimelineFacts.

Lemma ActivityTimeline_counts_witness :
  list_sum
    (map events_in_hour
       (ActivityTimeline (fun t => t / 3600000)
          (map to_WindowEvent (window_events morning))))
  = 3%nat.
Proof.
  apply (proj2 (proj2 (ActivityTimeline_counts (fun t => t / 3600000)
                         (map to_WindowEvent (window_events morning))))).
  intros e [<-|[<-|[<-|[]]]]; vm_compute; split; discriminate.
Defined.

(** ** The Recent Days card of the overview page *)

Lemma overview_query_total_keys (fromDate toDate : option Date) (n : nat)
  (d : Database) (s : DailySummary) :
  In s (overview_query fromDate toDate n d) ->
  total_keys s = keys_of_day (logical_date s) d.
Proof.
  intros Hin. unfold overview_query in Hin.
  assert (Hfull : In s (overview_groups fromDate toDate d)).
  { rewrite <- (firstn_skipn n (overview_groups _ _ _)).
    apply in_or_app. now left. }
  unfold overview_groups in Hfull. rewrite sort_in, in_map_iff in Hfull.
  destruct Hfull as [day [<- _]]. simpl. apply SUM_Z_total.
Qed.

Lemma find_date (day : Date) (l : list DailySummary) :
  In day (map logical_date l) ->
  exists s, find (fun d => logical_date d =? day) l = Some s
            /\ In s l /\ logical_date s = day.
Proof.
  induction l as [|x l IH]; simpl; [contradiction|].
  destruct (logical_date x =? day) eqn:E.
  - intros _. exists x. apply Z.eqb_eq in E. auto.
  - intros [H|H]; [apply Z.eqb_neq in E; contradiction|].
    destruct (IH H) as [s [H1 [H2 H3]]]. exists s. auto.
Qed.

(** A day among the 30 newest available dates that has a window event is
    among the 30 newest dates of the overview. *)
Lemma recent_day_in_overview (d : Database) (day : Date) :
  In day (firstn 30 (available_dates_query d)) ->
  has_window_event d day ->
  In day (map logical_date (overview_query None None 30 d)).
Proof.
  intros Hrecent [r [Hr Hday]].
  assert (Hq : qualifies d None None day) by (exists r; auto).
  destruct (overview_query_cut None None 30 d day Hq) as [H|[Hlen Hnewer]];
    [exact H|exfalso].
  pose proof (available_dates_query_descending d) as Hsorted.
  rewrite <- (firstn_skipn 30 (available_dates_query d)) in Hsorted.
  assert (Hincl : incl (day :: map logical_date (overview_query None None 30 d))
                    (firstn 30 (available_dates_query d))).
  { intros x [<-|Hx]; [exact Hrecent|].
    assert (Hgt : day < x).
    { apply in_map_iff in Hx. destruct Hx as [s [<- Hs]]. now apply Hnewer. }
    assert (Hav : In x (available_dates_query d)).
    { apply available_dates_query_in. left.
      eapply qualifies_has_window_event, overview_query_dates, Hx. }
    rewrite <- (firstn_skipn 30 (available_dates_query d)) in Hav.
    apply in_app_or in Hav. destruct Hav as [Hav|Hav]; [exact Hav|].
    pose proof (StronglySorted_app_lt Z.gt _ _ Hsorted day x Hrecent Hav).
    lia. }
  assert (Hnd : NoDup (day :: map logical_date
                                (overview_query None None 30 d))).
  { constructor.
    - intros Hin. apply in_map_iff in Hin. destruct Hin as [s [Hs Hin]].
      specialize (Hnewer s Hin). lia.
    - unfold overview_query. rewrite <- firstn_map.
      pose proof (overview_groups_NoDup None None d) as Hnd.
      rewrite <- (firstn_skipn 30 (map logical_date _)) in Hnd.
      now apply NoDup_app_remove_r in Hnd. }
  pose proof (NoDup_incl_length Hnd Hincl) as Hle.
  pose proof (firstn_le_length 30 (available_dates_query d)).
  cbn [List.length] in Hle. rewrite length_map, Hlen in Hle. lia.
Qed.

(** The card lists at most 30 days.  A listed day that has window events
    is shown with the sum of its key samples; a listed day that has none,
    so key samples only, is shown with 0 keys. *)
Theorem RecentDays_keys (formatDateLabel : Date -> string) (w : World) :
  exists dates overview,
    fst (getAvailableDates formatDateLabel w) = Ok dates
    /\ fst (getOverview None None 30 w) = Ok overview
    /\ (List.length (RecentDays dates overview) <= 30)%nat
    /\ forall info shown,
         In (info, shown) (RecentDays dates overview) ->
         (has_window_event (db w) (di_logical_date info) ->
          shown = keys_of_day (di_logical_date info) (db w))
         /\ (~ has_window_event (db w) (di_logical_date info) ->
             has_key_event (db w) (di_logical_date info) /\ shown = 0).
Proof.
  do 2 eexists. split; [apply getAvailableDates_ok|].
  split; [apply getOverview_ok|]. split.
  { unfold RecentDays. rewrite length_map. apply firstn_le_length. }
  intros info shown Hin. unfold RecentDays in Hin.
  apply in_map_iff in Hin. destruct Hin as [info' [E Hin]].
  injection E as -> <-.
  apply (in_map di_logical_date) in Hin.
  rewrite <- firstn_map, available_dates_of_infos in Hin.
  set (day := di_logical_date info) in *.
  split.
  - intros Hwin.
    pose proof (recent_day_in_overview (db w) day Hin Hwin) as Hov.
    destruct (find_date day _ Hov) as [s [Hfind [Hs Hdate]]].
    rewrite Hfind, <- Hdate. now apply overview_query_total_keys in Hs.
  - intros Hnone. split.
    + assert (Hav : In day (available_dates_query (db w))).
      { rewrite <- (firstn_skipn 30 (available_dates_query (db w))).
        apply in_or_app. now left. }
      apply available_dates_query_in in Hav. tauto.
    + destruct (find (fun d => logical_date d =? day)
                  (overview_query None None 30 (db w))) as [s|] eqn:F;
        [|reflexivity].
      exfalso. apply Hnone. apply find_some in F. destruct F as [Hs Hd].
      apply Z.eqb_eq in Hd. rewrite <- Hd.
      eapply qualifies_has_window_event, overview_query_dates.
      apply in_map, Hs.
Qed.
